(** * Motor control sketch (sketch_jan13a.ino): a shallow embedding

    The sketch targets the Arduino Uno R3 (ATmega328P): [int] is a 16-bit
    two's-complement integer, [long] is 32 bits and [unsigned long] is a
    32-bit modular integer.  Integers are modelled as [Z] with the
    wrap-around written out.  The sketch's global variables live in the
    record [globals], the board (EEPROM contents, millisecond clock, serial
    receive buffer, input pins and the chronological log of every output
    call) in the record [board].  Code that may dereference a null token
    runs in a small state monad whose failure is undefined behaviour.

    Idealisations.  Time passes in [delay] and between calls (the
    environment step), not inside straight-line code, so two [millis()]
    reads in one function agree.  The Arduino [String] is the sequence of
    the characters received.  A [float] is kept as the text it was parsed
    from, and printing it is logged as a call of its own.  [digitalRead]
    and [analogRead] return what the environment put on the pin. *)

From Stdlib Require Import ZArith String Ascii List Bool Lia DecimalString.
Import ListNotations.
Local Open Scope string_scope.
Local Open Scope list_scope.
Local Open Scope Z_scope.

(** ** Machine integers *)

Module CInt.

Definition INT_BITS : Z := 16.
Definition LONG_BITS : Z := 32.

(** Reduction of [x] to a signed two's-complement integer of [bits] bits. *)
Definition wrap_signed (bits x : Z) : Z :=
  let r := x mod 2 ^ bits in
  if r <? 2 ^ (bits - 1) then r else r - 2 ^ bits.

Definition to_int (x : Z) : Z := wrap_signed INT_BITS x.
Definition to_long (x : Z) : Z := wrap_signed LONG_BITS x.
Definition to_ulong (x : Z) : Z := x mod 2 ^ LONG_BITS.

(** C division truncates toward zero. *)
Definition cdiv (a b : Z) : Z := Z.quot a b.

End CInt.
Import CInt.

(** ** Characters, C strings and the parsing helpers of libc *)

Module CStr.

Definition code (c : ascii) : Z := Z.of_nat (nat_of_ascii c).

Definition NL : ascii := ascii_of_nat 10.
Definition COLON : ascii := ":"%char.

(** [isspace]: space, \t, \n, \v, \f, \r. *)
Definition isspace (c : ascii) : bool :=
  (code c =? 32) || ((9 <=? code c) && (code c <=? 13)).

Definition isdigit (c : ascii) : bool :=
  (48 <=? code c) && (code c <=? 57).

Fixpoint skip_space (s : string) : string :=
  match s with
  | String c r => if isspace c then skip_space r else s
  | EmptyString => s
  end.

Fixpoint digits_value (acc : Z) (s : string) : Z :=
  match s with
  | String c r =>
      if isdigit c then digits_value (10 * acc + (code c - 48)) r else acc
  | EmptyString => acc
  end.

(** The mathematical value [atoi]/[atol] read: leading white space, an
    optional sign, then the longest run of decimal digits. *)
Definition parse_decimal (s : string) : Z :=
  match skip_space s with
  | String "-"%char r => - digits_value 0 r
  | String "+"%char r => digits_value 0 r
  | r => digits_value 0 r
  end.

Definition atoi (s : string) : Z := to_int (parse_decimal s).
Definition atol (s : string) : Z := to_long (parse_decimal s).

(** A [float] is kept as the text [atof] parsed it from; floating-point
    arithmetic is not modelled (the sketch only prints these values). *)
Inductive cfloat : Type := FloatOf (text : string).
Definition atof (s : string) : cfloat := FloatOf s.

Fixpoint skip_delim (s : string) : string :=
  match s with
  | String c r => if Ascii.eqb c COLON then skip_delim r else s
  | EmptyString => s
  end.

(** [scan_token s] cuts [s] at its first ':' : the token before it and
    the text after it (the saved pointer of [strtok]). *)
Fixpoint scan_token (s : string) : string * string :=
  match s with
  | String c r =>
      if Ascii.eqb c COLON then (EmptyString, r)
      else let (t, rest) := scan_token r in (String c t, rest)
  | EmptyString => (EmptyString, EmptyString)
  end.

(** [strtok(_, ":")] on the text at the saved pointer: [None] is the null
    pointer; otherwise the token and the new saved pointer. *)
Definition strtok (s : string) : option (string * string) :=
  match skip_delim s with
  | EmptyString => None
  | s' => Some (scan_token s')
  end.

Definition is_trailing (c : ascii) : bool :=
  (code c =? 13) || (code c =? 10) || (code c =? 32) || (code c =? 9).

(** Drop the longest suffix of characters satisfying [p]. *)
Fixpoint drop_suffix (p : ascii -> bool) (s : string) : string :=
  match s with
  | String c r =>
      match drop_suffix p r with
      | EmptyString => if p c then EmptyString else String c EmptyString
      | r' => String c r'
      end
  | EmptyString => EmptyString
  end.

(** The lambda [stripTrailing] of [handleSerialCommands]. *)
Definition stripTrailing (s : string) : string := drop_suffix is_trailing s.

(** [String::trim]. *)
Definition trim (s : string) : string := drop_suffix isspace (skip_space s).

Fixpoint take (n : nat) (s : string) : string :=
  match n, s with
  | S n', String c r => String c (take n' r)
  | _, _ => EmptyString
  end.

(** [String::toCharArray(buf, bufsize)]: at most [bufsize - 1] characters. *)
Definition toCharArray (s : string) (bufsize : nat) : string :=
  take (bufsize - 1) s.

(** A token as [strtok] returns it: non-empty and free of ':'. *)
Fixpoint colon_free (s : string) : bool :=
  match s with
  | String c r => negb (Ascii.eqb c COLON) && colon_free r
  | EmptyString => true
  end.

Definition is_token (s : string) : bool :=
  match s with
  | EmptyString => false
  | _ => colon_free s
  end.

End CStr.
Import CStr.

(** ** Pins and constants *)

Definition HIGH : Z := 1.
Definition LOW : Z := 0.
Definition INPUT_PULLUP : Z := 2.
Definition OUTPUT : Z := 1.
Definition A0 : Z := 14.
Definition A1 : Z := 15.
Definition A2 : Z := 16.

Definition ENA : Z := 5.
Definition IN1 : Z := 7.
Definition IN2 : Z := 8.
Definition ENB : Z := 6.
Definition IN3 : Z := 9.
Definition IN4 : Z := 11.
Definition SENSOR_PIN_1 : Z := 2.
Definition SENSOR_PIN_2 : Z := 3.
Definition LDR_LEFT_PIN : Z := A0.
Definition LDR_RIGHT_PIN : Z := A1.
Definition FEEDBACK_MOTOR_PIN_FWD : Z := 12.
Definition FEEDBACK_MOTOR_PIN_REV : Z := 13.
Definition EEPROM_ADDR_MS_PER_MM : Z := 0.
Definition EEPROM_ADDR_MS_PER_DEG : Z := 4.
Definition SENSOR_CHECK_INTERVAL : Z := 250.

(** ** The board: every call the sketch makes on the Arduino API *)

(** Output calls, logged in the order the sketch makes them. *)
Inductive hw_call : Type :=
| Serial_begin (baud : Z)
| Serial_print (s : string)
| Serial_print_int (n : Z)
| Serial_print_float (f : cfloat)
| Serial_println (s : string)
| Serial_println_int (n : Z)
| PinMode (pin mode : Z)
| DigitalWrite (pin level : Z)
| AnalogWrite (pin duty : Z)
| Delay (ms : Z)
| EEPROM_put (addr value : Z).

Record board : Type := mkBoard {
  eeprom : Z -> Z;        (* byte stored at each EEPROM address *)
  clock : Z;              (* what millis() returns, an unsigned long *)
  rx : string;            (* bytes waiting in the serial receive buffer *)
  din : Z -> Z;           (* level digitalRead finds on each pin *)
  ain : Z -> Z;           (* value analogRead finds on each pin *)
  log : list hw_call      (* output calls so far, oldest first *)
}.

(** The sketch's global variables. *)
Record globals : Type := mkGlobals {
  sensor1_last_state : Z;
  sensor2_last_state : Z;
  inputString : string;
  stringComplete : bool;
  motor_speeds : Z * Z;           (* int motor_speeds[2] *)
  ms_per_mm : Z;
  ms_per_deg : Z;
  sensor_report_enabled : bool;
  move_timer_start : Z;
  move_duration : Z;
  timed_move_motor_id : Z;
  last_sensor_check : Z
}.

Record state : Type := mkState { vars : globals; hw : board }.

(** The initialisers of the global declarations. *)
Definition initial_globals : globals :=
  {| sensor1_last_state := -1;
     sensor2_last_state := -1;
     inputString := "";
     stringComplete := false;
     motor_speeds := (255, 255);
     ms_per_mm := 50;
     ms_per_deg := 10;
     sensor_report_enabled := true;
     move_timer_start := 0;
     move_duration := 0;
     timed_move_motor_id := -1;
     last_sensor_check := 0 |}.

(** Assignment to each global: the record with that one field replaced. *)

Definition set_sensor1_last_state (v : Z) (g : globals) : globals :=
  {| sensor1_last_state := v;
     sensor2_last_state := sensor2_last_state g;
     inputString := inputString g;
     stringComplete := stringComplete g;
     motor_speeds := motor_speeds g;
     ms_per_mm := ms_per_mm g;
     ms_per_deg := ms_per_deg g;
     sensor_report_enabled := sensor_report_enabled g;
     move_timer_start := move_timer_start g;
     move_duration := move_duration g;
     timed_move_motor_id := timed_move_motor_id g;
     last_sensor_check := last_sensor_check g |}.

Definition set_sensor2_last_state (v : Z) (g : globals) : globals :=
  {| sensor1_last_state := sensor1_last_state g;
     sensor2_last_state := v;
     inputString := inputString g;
     stringComplete := stringComplete g;
     motor_speeds := motor_speeds g;
     ms_per_mm := ms_per_mm g;
     ms_per_deg := ms_per_deg g;
     sensor_report_enabled := sensor_report_enabled g;
     move_timer_start := move_timer_start g;
     move_duration := move_duration g;
     timed_move_motor_id := timed_move_motor_id g;
     last_sensor_check := last_sensor_check g |}.

Definition set_inputString (v : string) (g : globals) : globals :=
  {| sensor1_last_state := sensor1_last_state g;
     sensor2_last_state := sensor2_last_state g;
     inputString := v;
     stringComplete := stringComplete g;
     motor_speeds := motor_speeds g;
     ms_per_mm := ms_per_mm g;
     ms_per_deg := ms_per_deg g;
     sensor_report_enabled := sensor_report_enabled g;
     move_timer_start := move_timer_start g;
     move_duration := move_duration g;
     timed_move_motor_id := timed_move_motor_id g;
     last_sensor_check := last_sensor_check g |}.

Definition set_stringComplete (v : bool) (g : globals) : globals :=
  {| sensor1_last_state := sensor1_last_state g;
     sensor2_last_state := sensor2_last_state g;
     inputString := inputString g;
     stringComplete := v;
     motor_speeds := motor_speeds g;
     ms_per_mm := ms_per_mm g;
     ms_per_deg := ms_per_deg g;
     sensor_report_enabled := sensor_report_enabled g;
     move_timer_start := move_timer_start g;
     move_duration := move_duration g;
     timed_move_motor_id := timed_move_motor_id g;
     last_sensor_check := last_sensor_check g |}.

Definition set_motor_speeds (v : Z * Z) (g : globals) : globals :=
  {| sensor1_last_state := sensor1_last_state g;
     sensor2_last_state := sensor2_last_state g;
     inputString := inputString g;
     stringComplete := stringComplete g;
     motor_speeds := v;
     ms_per_mm := ms_per_mm g;
     ms_per_deg := ms_per_deg g;
     sensor_report_enabled := sensor_report_enabled g;
     move_timer_start := move_timer_start g;
     move_duration := move_duration g;
     timed_move_motor_id := timed_move_motor_id g;
     last_sensor_check := last_sensor_check g |}.

Definition set_ms_per_mm (v : Z) (g : globals) : globals :=
  {| sensor1_last_state := sensor1_last_state g;
     sensor2_last_state := sensor2_last_state g;
     inputString := inputString g;
     stringComplete := stringComplete g;
     motor_speeds := motor_speeds g;
     ms_per_mm := v;
     ms_per_deg := ms_per_deg g;
     sensor_report_enabled := sensor_report_enabled g;
     move_timer_start := move_timer_start g;
     move_duration := move_duration g;
     timed_move_motor_id := timed_move_motor_id g;
     last_sensor_check := last_sensor_check g |}.

Definition set_ms_per_deg (v : Z) (g : globals) : globals :=
  {| sensor1_last_state := sensor1_last_state g;
     sensor2_last_state := sensor2_last_state g;
     inputString := inputString g;
     stringComplete := stringComplete g;
     motor_speeds := motor_speeds g;
     ms_per_mm := ms_per_mm g;
     ms_per_deg := v;
     sensor_report_enabled := sensor_report_enabled g;
     move_timer_start := move_timer_start g;
     move_duration := move_duration g;
     timed_move_motor_id := timed_move_motor_id g;
     last_sensor_check := last_sensor_check g |}.

Definition set_sensor_report_enabled (v : bool) (g : globals) : globals :=
  {| sensor1_last_state := sensor1_last_state g;
     sensor2_last_state := sensor2_last_state g;
     inputString := inputString g;
     stringComplete := stringComplete g;
     motor_speeds := motor_speeds g;
     ms_per_mm := ms_per_mm g;
     ms_per_deg := ms_per_deg g;
     sensor_report_enabled := v;
     move_timer_start := move_timer_start g;
     move_duration := move_duration g;
     timed_move_motor_id := timed_move_motor_id g;
     last_sensor_check := last_sensor_check g |}.

Definition set_move_timer_start (v : Z) (g : globals) : globals :=
  {| sensor1_last_state := sensor1_last_state g;
     sensor2_last_state := sensor2_last_state g;
     inputString := inputString g;
     stringComplete := stringComplete g;
     motor_speeds := motor_speeds g;
     ms_per_mm := ms_per_mm g;
     ms_per_deg := ms_per_deg g;
     sensor_report_enabled := sensor_report_enabled g;
     move_timer_start := v;
     move_duration := move_duration g;
     timed_move_motor_id := timed_move_motor_id g;
     last_sensor_check := last_sensor_check g |}.

Definition set_move_duration (v : Z) (g : globals) : globals :=
  {| sensor1_last_state := sensor1_last_state g;
     sensor2_last_state := sensor2_last_state g;
     inputString := inputString g;
     stringComplete := stringComplete g;
     motor_speeds := motor_speeds g;
     ms_per_mm := ms_per_mm g;
     ms_per_deg := ms_per_deg g;
     sensor_report_enabled := sensor_report_enabled g;
     move_timer_start := move_timer_start g;
     move_duration := v;
     timed_move_motor_id := timed_move_motor_id g;
     last_sensor_check := last_sensor_check g |}.

Definition set_timed_move_motor_id (v : Z) (g : globals) : globals :=
  {| sensor1_last_state := sensor1_last_state g;
     sensor2_last_state := sensor2_last_state g;
     inputString := inputString g;
     stringComplete := stringComplete g;
     motor_speeds := motor_speeds g;
     ms_per_mm := ms_per_mm g;
     ms_per_deg := ms_per_deg g;
     sensor_report_enabled := sensor_report_enabled g;
     move_timer_start := move_timer_start g;
     move_duration := move_duration g;
     timed_move_motor_id := v;
     last_sensor_check := last_sensor_check g |}.

Definition set_last_sensor_check (v : Z) (g : globals) : globals :=
  {| sensor1_last_state := sensor1_last_state g;
     sensor2_last_state := sensor2_last_state g;
     inputString := inputString g;
     stringComplete := stringComplete g;
     motor_speeds := motor_speeds g;
     ms_per_mm := ms_per_mm g;
     ms_per_deg := ms_per_deg g;
     sensor_report_enabled := sensor_report_enabled g;
     move_timer_start := move_timer_start g;
     move_duration := move_duration g;
     timed_move_motor_id := timed_move_motor_id g;
     last_sensor_check := v |}.

Definition set_eeprom (v : Z -> Z) (b : board) : board :=
  {| eeprom := v;
     clock := clock b;
     rx := rx b;
     din := din b;
     ain := ain b;
     log := log b |}.

Definition set_clock (v : Z) (b : board) : board :=
  {| eeprom := eeprom b;
     clock := v;
     rx := rx b;
     din := din b;
     ain := ain b;
     log := log b |}.

Definition set_rx (v : string) (b : board) : board :=
  {| eeprom := eeprom b;
     clock := clock b;
     rx := v;
     din := din b;
     ain := ain b;
     log := log b |}.

Definition set_log (v : list hw_call) (b : board) : board :=
  {| eeprom := eeprom b;
     clock := clock b;
     rx := rx b;
     din := din b;
     ain := ain b;
     log := v |}.

(** ** The monad of the sketch: state passing, [None] is undefined behaviour *)

Definition M (A : Type) : Type := state -> option (A * state).

Definition ret {A : Type} (a : A) : M A := fun st => Some (a, st).

Definition bind {A B : Type} (m : M A) (k : A -> M B) : M B :=
  fun st => match m st with
            | Some (a, st') => k a st'
            | None => None
            end.

(** Dereferencing a null pointer. *)
Definition undefined {A : Type} : M A := fun _ => None.

Declare Scope sketch_scope.
Delimit Scope sketch_scope with sketch.
Notation "x <- c ;; k" := (bind c (fun x => k))
  (at level 100, c at next level, k at level 200, right associativity)
  : sketch_scope.
Notation "' pat <- c ;; k" := (bind c (fun x => match x with pat => k end))
  (at level 100, pat pattern, c at next level, k at level 200,
   right associativity) : sketch_scope.
Notation "c ;; k" := (bind c (fun _ => k))
  (at level 100, k at level 200, right associativity) : sketch_scope.
Local Open Scope sketch_scope.

(** Read a global; assign a global. *)
Definition load {A : Type} (f : globals -> A) : M A :=
  fun st => Some (f (vars st), st).

Definition assign (f : globals -> globals) : M unit :=
  fun st => Some (tt, mkState (f (vars st)) (hw st)).

(** Append one output call to the board's log. *)
Definition call (e : hw_call) : M unit :=
  fun st => Some (tt, mkState (vars st) (set_log (log (hw st) ++ [e]) (hw st))).

Definition pinMode (pin mode : Z) : M unit := call (PinMode pin mode).
Definition digitalWrite (pin level : Z) : M unit := call (DigitalWrite pin level).
Definition analogWrite (pin duty : Z) : M unit := call (AnalogWrite pin duty).
Definition digitalRead (pin : Z) : M Z := fun st => Some (din (hw st) pin, st).
Definition analogRead (pin : Z) : M Z := fun st => Some (ain (hw st) pin, st).
Definition millis : M Z := fun st => Some (clock (hw st), st).

(** [delay(ms)] is logged and lets the millisecond clock advance by [ms]. *)
Definition delay (ms : Z) : M unit :=
  fun st =>
    let b := set_log (log (hw st) ++ [Delay ms]) (hw st) in
    Some (tt, mkState (vars st) (set_clock (to_ulong (clock b + ms)) b)).

(** [EEPROM.get(addr, int&)] and [EEPROM.put(addr, int)]: the two bytes of
    an [int], low byte first. *)
Definition eeprom_read_int (e : Z -> Z) (addr : Z) : Z :=
  to_int (e addr mod 256 + 256 * (e (addr + 1) mod 256)).

Definition eeprom_write_int (e : Z -> Z) (addr v : Z) : Z -> Z :=
  fun a => if a =? addr then v mod 256
           else if a =? addr + 1 then (v / 256) mod 256
           else e a.

Definition EEPROM_get (addr : Z) : M Z :=
  fun st => Some (eeprom_read_int (eeprom (hw st)) addr, st).

Definition EEPROM_put_int (addr v : Z) : M unit :=
  fun st =>
    let b := set_log (log (hw st) ++ [EEPROM_put addr v]) (hw st) in
    Some (tt, mkState (vars st)
                (set_eeprom (eeprom_write_int (eeprom b) addr v) b)).

(** ** Motor control functions *)

Definition runMotor (id : Z) (forward : bool) : M unit :=
  if id =? 0 then
    digitalWrite IN1 (if forward then HIGH else LOW) ;;
    digitalWrite IN2 (if forward then LOW else HIGH) ;;
    speeds <- load motor_speeds ;;
    analogWrite ENA (fst speeds)
  else if id =? 1 then
    digitalWrite IN3 (if forward then HIGH else LOW) ;;
    digitalWrite IN4 (if forward then LOW else HIGH) ;;
    speeds <- load motor_speeds ;;
    analogWrite ENB (snd speeds)
  else ret tt.

Definition stopMotor (id : Z) : M unit :=
  if id =? 0 then
    digitalWrite IN1 LOW ;;
    digitalWrite IN2 LOW ;;
    analogWrite ENA 0
  else if id =? 1 then
    digitalWrite IN3 LOW ;;
    digitalWrite IN4 LOW ;;
    analogWrite ENB 0
  else ret tt.

Definition homeMotor (id : Z) : M unit :=
  call (Serial_print "INFO:Homing for motor ") ;;
  call (Serial_print_int id) ;;
  call (Serial_println " not yet implemented.").

Definition startTimedMove (id : Z) (forward : bool) (duration : Z) : M unit :=
  assign (set_timed_move_motor_id id) ;;
  assign (set_move_duration duration) ;;
  now <- millis ;;
  assign (set_move_timer_start now) ;;
  runMotor id forward.

Definition updateTimedMove : M unit :=
  id <- load timed_move_motor_id ;;
  if negb (id =? -1) then
    now <- millis ;;
    start <- load move_timer_start ;;
    duration <- load move_duration ;;
    if to_ulong (now - start) >=? duration then
      stopMotor id ;;
      assign (set_timed_move_motor_id (-1))
    else ret tt
  else ret tt.

Definition testMotor (id : Z) : M unit :=
  call (Serial_print "INFO:Testing motor ") ;;
  call (Serial_println_int id) ;;
  runMotor id true ;;
  delay 250 ;;
  stopMotor id ;;
  call (Serial_println "INFO:Test complete.").

Definition moveMotorDistance (id : Z) (distance : cfloat) : M unit :=
  call (Serial_print "INFO:MOVE_DIST for motor ") ;;
  call (Serial_print_int id) ;;
  call (Serial_print " by ") ;;
  call (Serial_print_float distance) ;;
  call (Serial_println "mm") ;;
  digitalWrite FEEDBACK_MOTOR_PIN_FWD HIGH ;;
  digitalWrite FEEDBACK_MOTOR_PIN_REV LOW ;;
  runMotor id true ;;
  delay 250 ;;
  stopMotor id ;;
  digitalWrite FEEDBACK_MOTOR_PIN_FWD LOW ;;
  digitalWrite FEEDBACK_MOTOR_PIN_REV LOW.

Definition turnMotor (id : Z) (degrees : cfloat) : M unit :=
  call (Serial_print "INFO:TURN for motor ") ;;
  call (Serial_print_int id) ;;
  call (Serial_print " by ") ;;
  call (Serial_print_float degrees) ;;
  call (Serial_println " degrees.") ;;
  digitalWrite FEEDBACK_MOTOR_PIN_FWD HIGH ;;
  digitalWrite FEEDBACK_MOTOR_PIN_REV LOW ;;
  runMotor id true ;;
  delay 250 ;;
  stopMotor id ;;
  digitalWrite FEEDBACK_MOTOR_PIN_FWD LOW ;;
  digitalWrite FEEDBACK_MOTOR_PIN_REV LOW.

(** ** Sensor and calibration functions *)

Definition updateSensorStates : M unit :=
  now <- millis ;;
  last <- load last_sensor_check ;;
  if to_ulong (now - last) >=? to_ulong SENSOR_CHECK_INTERVAL then
    now' <- millis ;;
    assign (set_last_sensor_check now') ;;
    current_state1 <- digitalRead SENSOR_PIN_1 ;;
    last1 <- load sensor1_last_state ;;
    (if negb (current_state1 =? last1) then
       assign (set_sensor1_last_state current_state1) ;;
       call (Serial_print "SENSOR_STATE:") ;;
       call (Serial_print_int SENSOR_PIN_1) ;;
       call (Serial_print ":") ;;
       call (Serial_println_int current_state1)
     else ret tt) ;;
    current_state2 <- digitalRead SENSOR_PIN_2 ;;
    last2 <- load sensor2_last_state ;;
    if negb (current_state2 =? last2) then
      assign (set_sensor2_last_state current_state2) ;;
      call (Serial_print "SENSOR_STATE:") ;;
      call (Serial_print_int SENSOR_PIN_2) ;;
      call (Serial_print ":") ;;
      call (Serial_println_int current_state2)
    else ret tt
  else ret tt.

Definition calibrateMotors : M unit :=
  call (Serial_println "INFO:Starting motor calibration...") ;;
  delay 2000 ;;
  call (Serial_println "INFO:Motor calibration complete.").

Definition calibrateSensors : M unit :=
  call (Serial_println "INFO:Starting sensor calibration...") ;;
  call (Serial_println "INFO:Please cover light sensors now.") ;;
  delay 3000 ;;
  call (Serial_println "INFO:Please expose light sensors to bright light.") ;;
  delay 3000 ;;
  call (Serial_println "INFO:Sensor calibration complete.").

Definition trackSun : M unit :=
  left_val <- analogRead LDR_LEFT_PIN ;;
  right_val <- analogRead LDR_RIGHT_PIN ;;
  call (Serial_print "INFO:Sun tracking check. L:") ;;
  call (Serial_print_int left_val) ;;
  call (Serial_print " R:") ;;
  call (Serial_println_int right_val) ;;
  let error := to_int (left_val - right_val) in
  let tolerance := 50 in
  if to_int (Z.abs error) >? tolerance then
    runMotor 0 (error >? 0) ;;
    delay 50 ;;
    stopMotor 0
  else ret tt.

(** ** Serial command handling *)

(** The [map] utility on [long] operands. *)
Definition map (x in_min in_max out_min out_max : Z) : Z :=
  if in_max =? in_min then out_min
  else
    to_long
      (to_long
         (cdiv (to_long (to_long (x - in_min) * to_long (out_max - out_min)))
               (to_long (in_max - in_min)))
       + out_min).

(** [motor_speeds[id] = v], for an index the caller has checked. *)
Definition store_motor_speed (id v : Z) (g : globals) : globals :=
  if id =? 0 then set_motor_speeds (v, snd (motor_speeds g)) g
  else set_motor_speeds (fst (motor_speeds g), v) g.

(** [strtok(NULL, ":")] whose result is used without a null check. *)
Definition next_token (saved : string) : M (string * string) :=
  match strtok saved with
  | Some p => ret p
  | None => undefined
  end.

(** The [while (Serial.available())] loop: every waiting byte is read; a
    newline sets [stringComplete], any other byte is appended. *)
Fixpoint read_available (waiting input : string) (complete : bool)
  : string * bool :=
  match waiting with
  | String inChar rest =>
      if Ascii.eqb inChar NL then read_available rest input true
      else read_available rest (input ++ String inChar "")%string complete
  | EmptyString => (input, complete)
  end.

Definition read_serial : M unit :=
  fun st =>
    let r := read_available (rx (hw st)) (inputString (vars st))
                            (stringComplete (vars st)) in
    Some (tt, mkState (set_stringComplete (snd r)
                         (set_inputString (fst r) (vars st)))
                      (set_rx "" (hw st))).

(** The command chain of [handleSerialCommands], from the first [strtok]
    on [cmd_buffer] to the final [else]. *)
Definition dispatch (cmd_buffer : string) : M unit :=
  match strtok cmd_buffer with
  | None => ret tt
  | Some (command0, saved) =>
    let command := stripTrailing command0 in
    if (command =? "MOTOR_CMD")%string then
      ' (id_tok, saved) <- next_token saved ;;
      let id := atoi id_tok in
      ' (sub_cmd, _) <- next_token saved ;;
      if (sub_cmd =? "FWD")%string then runMotor id true
      else if (sub_cmd =? "REV")%string then runMotor id false
      else if (sub_cmd =? "STOP")%string then stopMotor id
      else if (sub_cmd =? "HOME")%string then homeMotor id
      else ret tt
    else if (command =? "SET_SPEED")%string then
      ' (id_str, saved) <- next_token saved ;;
      ' (percent_tok, _) <- next_token saved ;;
      let speed_percent := atoi percent_tok in
      let speed_val := to_int (map speed_percent 0 100 0 255) in
      if (id_str =? "*")%string then
        assign (set_motor_speeds (speed_val, speed_val))
      else
        let id := atoi id_str in
        if (id >=? 0) && (id <? 2) then assign (store_motor_speed id speed_val)
        else ret tt
    else if (command =? "SET_OUTPUT")%string then
      ' (pin_tok, saved) <- next_token saved ;;
      let pin := atoi pin_tok in
      ' (state_tok, _) <- next_token saved ;;
      let level := atoi state_tok in
      pinMode pin OUTPUT ;;
      digitalWrite pin level
    else if (command =? "GET_CAL")%string then
      call (Serial_print "CAL:MS_PER_MM:") ;;
      mm <- load ms_per_mm ;;
      call (Serial_print_int mm) ;;
      call (Serial_print ":MS_PER_DEG:") ;;
      deg <- load ms_per_deg ;;
      call (Serial_println_int deg)
    else if (command =? "SET_CAL")%string then
      match strtok saved with
      | Some (key, saved) =>
        match strtok saved with
        | Some (val, _) =>
          let v := atoi val in
          if (key =? "MS_PER_MM")%string then
            assign (set_ms_per_mm v) ;;
            EEPROM_put_int EEPROM_ADDR_MS_PER_MM v ;;
            call (Serial_print "SET_CAL:MS_PER_MM:") ;;
            mm <- load ms_per_mm ;;
            call (Serial_println_int mm)
          else if (key =? "MS_PER_DEG")%string then
            assign (set_ms_per_deg v) ;;
            EEPROM_put_int EEPROM_ADDR_MS_PER_DEG v ;;
            call (Serial_print "SET_CAL:MS_PER_DEG:") ;;
            deg <- load ms_per_deg ;;
            call (Serial_println_int deg)
          else call (Serial_println "ERROR:Unknown calibration key")
        | None => call (Serial_println "ERROR:SET_CAL invalid format")
        end
      | None => call (Serial_println "ERROR:SET_CAL invalid format")
      end
    else if (command =? "PIN_TEST")%string then
      speeds <- load motor_speeds ;;
      let prevENA := fst speeds in
      let prevENB := snd speeds in
      analogWrite ENA 0 ;;
      analogWrite ENB 0 ;;
      digitalWrite IN1 HIGH ;;
      digitalWrite IN2 LOW ;;
      digitalWrite IN3 HIGH ;;
      digitalWrite IN4 LOW ;;
      delay 200 ;;
      digitalWrite IN1 LOW ;;
      digitalWrite IN2 LOW ;;
      digitalWrite IN3 LOW ;;
      digitalWrite IN4 LOW ;;
      call (Serial_println "PIN_TEST:OK") ;;
      analogWrite ENA prevENA ;;
      analogWrite ENB prevENB
    else if (command =? "MOVE_TIME")%string then
      ' (id_tok, saved) <- next_token saved ;;
      let id := atoi id_tok in
      ' (dir, saved) <- next_token saved ;;
      ' (duration_tok, _) <- next_token saved ;;
      let duration := to_ulong (atol duration_tok) in
      startTimedMove id (dir =? "FWD")%string duration
    else if (command =? "MOVE_DIST")%string then
      ' (id_tok, saved) <- next_token saved ;;
      let id := atoi id_tok in
      ' (dist_tok, _) <- next_token saved ;;
      moveMotorDistance id (atof dist_tok)
    else if (command =? "TURN")%string then
      ' (id_tok, saved) <- next_token saved ;;
      let id := atoi id_tok in
      ' (deg_tok, _) <- next_token saved ;;
      turnMotor id (atof deg_tok)
    else if (command =? "CALIBRATE")%string then
      ' (type, _) <- next_token saved ;;
      if (type =? "MOTORS")%string then calibrateMotors
      else if (type =? "SENSORS")%string then calibrateSensors
      else ret tt
    else if (command =? "TRACK_SUN")%string then trackSun
    else if (command =? "TEST_MOTOR")%string then
      ' (id_tok, _) <- next_token saved ;;
      testMotor (atoi id_tok)
    else if (command =? "SENSOR_REPORT")%string then
      match strtok saved with
      | Some (mode0, _) =>
        let mode := stripTrailing mode0 in
        if (mode =? "ON")%string || (mode =? "OFF")%string then
          assign (set_sensor_report_enabled (mode =? "ON")%string) ;;
          call (Serial_print "SENSOR_REPORT:") ;;
          enabled <- load sensor_report_enabled ;;
          call (Serial_println (if enabled then "ON" else "OFF")) ;;
          call (Serial_print "ACK:") ;;
          call (Serial_println "SENSOR_REPORT")
        else
          call (Serial_print "NACK:SENSOR_REPORT:") ;;
          call (Serial_println mode)
      | None =>
        call (Serial_print "NACK:SENSOR_REPORT:") ;;
        call (Serial_println "<none>")
      end
    else
      call (Serial_print "Invalid Command:") ;;
      call (Serial_println command)
  end.

Definition handleSerialCommands : M unit :=
  read_serial ;;
  complete <- load stringComplete ;;
  if complete then
    input <- load inputString ;;
    assign (set_inputString (trim input)) ;;
    call (Serial_print "CMD_RCVD:") ;;
    input <- load inputString ;;
    call (Serial_println (toCharArray input 200)) ;;
    dispatch (toCharArray input 200) ;;
    assign (set_inputString "") ;;
    assign (set_stringComplete false)
  else ret tt.

(** ** [setup] and [loop] *)

Definition setup : M unit :=
  call (Serial_begin 115200) ;;
  mm <- EEPROM_get EEPROM_ADDR_MS_PER_MM ;;
  assign (set_ms_per_mm mm) ;;
  deg <- EEPROM_get EEPROM_ADDR_MS_PER_DEG ;;
  assign (set_ms_per_deg deg) ;;
  mm <- load ms_per_mm ;;
  (if mm <=? 0 then assign (set_ms_per_mm 50) else ret tt) ;;
  deg <- load ms_per_deg ;;
  (if deg <=? 0 then assign (set_ms_per_deg 10) else ret tt) ;;
  pinMode ENA OUTPUT ;;
  pinMode IN1 OUTPUT ;;
  pinMode IN2 OUTPUT ;;
  pinMode ENB OUTPUT ;;
  pinMode IN3 OUTPUT ;;
  pinMode IN4 OUTPUT ;;
  pinMode SENSOR_PIN_1 INPUT_PULLUP ;;
  pinMode SENSOR_PIN_2 INPUT_PULLUP ;;
  pinMode FEEDBACK_MOTOR_PIN_FWD OUTPUT ;;
  pinMode FEEDBACK_MOTOR_PIN_REV OUTPUT ;;
  stopMotor 0 ;;
  stopMotor 1 ;;
  call (Serial_print "STATUS:Arduino Ready. CAL:MS_PER_MM:") ;;
  mm <- load ms_per_mm ;;
  call (Serial_print_int mm) ;;
  call (Serial_print ":MS_PER_DEG:") ;;
  deg <- load ms_per_deg ;;
  call (Serial_println_int deg).

Definition loop : M unit :=
  handleSerialCommands ;;
  updateTimedMove ;;
  updateSensorStates.

(** ** The running system *)

(** Power-on: the globals take their initialisers; the EEPROM keeps its
    contents; the clock starts at 0 and nothing has been output. *)
Definition power_on (e din ain : Z -> Z) : state :=
  mkState initial_globals (mkBoard e 0 "" din ain []).

(** Between two calls the environment may let time pass, deliver bytes to
    the serial port and change the levels on the input pins. *)
Inductive env_step : state -> state -> Prop :=
| env_change st clock' bytes din' ain' :
    0 <= clock' < 2 ^ LONG_BITS ->
    env_step st
      (mkState (vars st)
         (mkBoard (eeprom (hw st)) clock' (rx (hw st) ++ bytes)%string
                  din' ain' (log (hw st)))).

Inductive reachable : state -> Prop :=
| reach_setup e din ain st :
    setup (power_on e din ain) = Some (tt, st) -> reachable st
| reach_env st st' :
    reachable st -> env_step st st' -> reachable st'
| reach_loop st st' :
    reachable st -> loop st = Some (tt, st') -> reachable st'.

(** What a pin outputs: the last [digitalWrite] or [analogWrite] to it. *)
Inductive drive : Type :=
| Digital (level : Z)
| Pwm (duty : Z).

Definition drive_of (pin : Z) (acc : option drive) (e : hw_call)
  : option drive :=
  match e with
  | DigitalWrite p v => if p =? pin then Some (Digital v) else acc
  | AnalogWrite p v => if p =? pin then Some (Pwm v) else acc
  | _ => acc
  end.

Definition pin_drive (l : list hw_call) (pin : Z) : option drive :=
  fold_left (drive_of pin) l None.

(** The calls of a log that write to the serial port. *)
Definition is_serial_output (e : hw_call) : bool :=
  match e with
  | Serial_print _ | Serial_print_int _ | Serial_print_float _
  | Serial_println _ | Serial_println_int _ => true
  | _ => false
  end.

Definition serial_output (l : list hw_call) : list hw_call :=
  filter is_serial_output l.

(** The scheduler's view: a timed move is active when the slot holds a
    motor id other than -1 (the test of [updateTimedMove]). *)
Record TimedMove : Type := mkTimedMove {
  motorId : Z;
  startTimestamp : Z;
  durationMs : Z
}.

Definition timed_move_active (g : globals) : bool :=
  negb (timed_move_motor_id g =? -1).

Definition active_moves (g : globals) : list TimedMove :=
  if timed_move_active g
  then [mkTimedMove (timed_move_motor_id g) (move_timer_start g)
                    (move_duration g)]
  else [].

(** [exec m st]: the state [m] leaves, when it is defined. *)
Definition exec (m : M unit) (st : state) : option state :=
  match m st with
  | Some (_, st') => Some st'
  | None => None
  end.

(** The text the serial calls of a log put on the line; [None] when a
    [float] is printed, whose digits are not modelled. *)
Definition dec (n : Z) : string := NilZero.string_of_int (Z.to_int n).

Definition CRLF : string :=
  String (ascii_of_nat 13) (String (ascii_of_nat 10) EmptyString).

Fixpoint serial_text (l : list hw_call) : option string :=
  match l with
  | [] => Some EmptyString
  | e :: l' =>
      match serial_text l' with
      | None => None
      | Some rest =>
          match e with
          | Serial_print s => Some (s ++ rest)%string
          | Serial_print_int n => Some (dec n ++ rest)%string
          | Serial_println s => Some (s ++ CRLF ++ rest)%string
          | Serial_println_int n => Some (dec n ++ CRLF ++ rest)%string
          | Serial_print_float _ => None
          | _ => Some rest
          end
      end
  end.

(** The calls [stopMotor] and [runMotor] make for motor 0 and motor 1. *)
Definition stop_calls (id : Z) : list hw_call :=
  if id =? 0 then [DigitalWrite IN1 LOW; DigitalWrite IN2 LOW; AnalogWrite ENA 0]
  else if id =? 1 then
    [DigitalWrite IN3 LOW; DigitalWrite IN4 LOW; AnalogWrite ENB 0]
  else [].

Definition run_calls (id : Z) (forward : bool) (speeds : Z * Z)
  : list hw_call :=
  if id =? 0 then
    [DigitalWrite IN1 (if forward then HIGH else LOW);
     DigitalWrite IN2 (if forward then LOW else HIGH);
     AnalogWrite ENA (fst speeds)]
  else if id =? 1 then
    [DigitalWrite IN3 (if forward then HIGH else LOW);
     DigitalWrite IN4 (if forward then LOW else HIGH);
     AnalogWrite ENB (snd speeds)]
  else [].

(** The line a sensor poll prints for one pin. *)
Definition sensor_line (pin current last : Z) : list hw_call :=
  if negb (current =? last)
  then [Serial_print "SENSOR_STATE:"; Serial_print_int pin;
        Serial_print ":"; Serial_println_int current]
  else [].

(** The board after the environment delivered [bytes] at time [t]. *)
Definition receive (bytes : string) (t : Z) (st : state) : state :=
  mkState (vars st)
    (mkBoard (eeprom (hw st)) t (rx (hw st) ++ bytes)%string
             (din (hw st)) (ain (hw st)) (log (hw st))).

Definition erased_eeprom : Z -> Z := fun _ => 255.
Definition idle_pins : Z -> Z := fun _ => 0.

(** *** The specification's reading of SET_SPEED

    Following the spec's words, not the code: the PWM value is
    round(p * 255 / 100), clamped to [0,255].  [round_div n d] is the
    integer nearest to n/d (halves upward), for d > 0. *)
Definition round_div (n d : Z) : Z := (2 * n + d) / (2 * d).

Definition spec_round_pwm (p : Z) : Z :=
  Z.max 0 (Z.min 255 (round_div (p * 255) 100)).

(** [r] is an integer nearest to the rational n/d (d > 0), whichever way
    halves are rounded. *)
Definition nearest_to (r n d : Z) : Prop := 2 * Z.abs (r * d - n) <= d.

(** ** Notions used to state what the operations keep *)

(** [keeps R m]: whenever [m] is defined, the state before and the state
    after are related by [R]. *)
Definition keeps {A : Type} (R : state -> state -> Prop) (m : M A) : Prop :=
  forall st a st', m st = Some (a, st') -> R st st'.

(** The observation [obs] reads the same before and after. *)
Definition same {T : Type} (obs : state -> T) (st st' : state) : Prop :=
  obs st' = obs st.


(** The command name [dispatch] compares: the first token of the buffer
    with its trailing white space stripped. *)
Definition command_of (cmd_buffer : string) : option string :=
  match strtok cmd_buffer with
  | Some (command0, _) => Some (stripTrailing command0)
  | None => None
  end.

(** The names the chain of [dispatch] compares against, in its order. *)
Definition known_commands : list string :=
  ["MOTOR_CMD"; "SET_SPEED"; "SET_OUTPUT"; "GET_CAL"; "SET_CAL"; "PIN_TEST";
   "MOVE_TIME"; "MOVE_DIST"; "TURN"; "CALIBRATE"; "TRACK_SUN"; "TEST_MOTOR";
   "SENSOR_REPORT"]%string.

Definition is_known_command (c : string) : bool :=
  existsb (String.eqb c) known_commands.

Fixpoint without_newlines (s : string) : string :=
  match s with
  | String c r =>
      if Ascii.eqb c NL then without_newlines r
      else String c (without_newlines r)
  | EmptyString => EmptyString
  end.

Fixpoint has_newline (s : string) : bool :=
  match s with
  | String c r => Ascii.eqb c NL || has_newline r
  | EmptyString => false
  end.

Fixpoint all_chars (p : ascii -> bool) (s : string) : bool :=
  match s with
  | String c r => p c && all_chars p r
  | EmptyString => true
  end.

(** What the calibration commands act on: the two variables and the
    EEPROM contents. *)
Definition calibration_store (st : state) : Z * Z * (Z -> Z) :=
  (ms_per_mm (vars st), ms_per_deg (vars st), eeprom (hw st)).

(** The three variables of the timed-move slot. *)
Definition timed_move_slot (st : state) : Z * Z * Z :=
  (timed_move_motor_id (vars st), move_timer_start (vars st),
   move_duration (vars st)).

(** What the output pins of motor 0 and of motor 1 carry. *)
Definition motor0_outputs (st : state) :=
  (pin_drive (log (hw st)) IN1, pin_drive (log (hw st)) IN2,
   pin_drive (log (hw st)) ENA).

Definition motor1_outputs (st : state) :=
  (pin_drive (log (hw st)) IN3, pin_drive (log (hw st)) IN4,
   pin_drive (log (hw st)) ENB).

(** Two states that differ at most in [sensor_report_enabled]. *)
Definition agree_but_flag (st1 st2 : state) : Prop :=
  hw st1 = hw st2 /\
  set_sensor_report_enabled true (vars st1)
  = set_sensor_report_enabled true (vars st2).

(** [m] does not see [sensor_report_enabled]: from states that differ at
    most there it is defined on both or on neither, returns the same value
    and leaves states that again differ at most there. *)
Definition blind {A : Type} (m : M A) : Prop :=
  forall st1 st2, agree_but_flag st1 st2 ->
    match m st1, m st2 with
    | Some (a1, st1'), Some (a2, st2') => a1 = a2 /\ agree_but_flag st1' st2'
    | None, None => True
    | _, _ => False
    end.

(** The outputs of a stopped motor: both direction pins low, enable at
    PWM 0. *)
Definition motor_stopped : option drive * option drive * option drive :=
  (Some (Digital LOW), Some (Digital LOW), Some (Pwm 0)).

(** From [st] to [st'] the sketch held the board for [hold] ms and left
    motor [id] (when it is motor 0 or 1) stopped, changing no global and
    no EEPROM byte. *)
Definition halted_after (id hold : Z) (st st' : state) : Prop :=
  vars st' = vars st /\
  eeprom (hw st') = eeprom (hw st) /\
  clock (hw st') = to_ulong (clock (hw st) + hold) /\
  (id = 0 -> motor0_outputs st' = motor_stopped) /\
  (id = 1 -> motor1_outputs st' = motor_stopped).

(** [m] is defined on every state. *)
Definition defined {A : Type} (m : M A) : Prop :=
  forall st, exists a st', m st = Some (a, st').

(** The commands whose branch passes a token to [atoi], [atol], [atof] or
    [strcmp] without testing it for null. *)
Definition unchecked_argument_commands : list string :=
  ["MOTOR_CMD"; "SET_SPEED"; "SET_OUTPUT"; "MOVE_TIME"; "MOVE_DIST"; "TURN";
   "CALIBRATE"; "TEST_MOTOR"]%string.

(** The commands whose branch calls [digitalWrite] or [analogWrite],
    directly or through the motor functions. *)
Definition pin_writing_commands : list string :=
  ["MOTOR_CMD"; "SET_OUTPUT"; "PIN_TEST"; "MOVE_TIME"; "MOVE_DIST"; "TURN";
   "TRACK_SUN"; "TEST_MOTOR"]%string.

(** The fields of a line: the tokens successive calls of [strtok] return
    until it returns null.  Each call shortens the text, so the length of
    the text is fuel enough. *)
Fixpoint tokens_fuel (fuel : nat) (s : string) : list string :=
  match fuel with
  | O => []
  | S fuel' =>
      match strtok s with
      | Some (t, rest) => t :: tokens_fuel fuel' rest
      | None => []
      end
  end.

Definition tokens (s : string) : list string :=
  tokens_fuel (S (String.length s)) s.

(** The state with the millisecond clock at [t]. *)
Definition at_time (t : Z) (st : state) : state :=
  mkState (vars st) (set_clock t (hw st)).

Arguments to_int : simpl never.
Arguments to_long : simpl never.
Arguments to_ulong : simpl never.
Arguments atoi : simpl never.
Arguments atol : simpl never.
Arguments eeprom_read_int : simpl never.
Arguments eeprom_write_int : simpl never.

(** * Properties *)

(** ** The parsing helpers on sample inputs *)

Example strtok_skips_leading_delimiters :
  strtok "::a:b" = Some ("a", "b")%string.
Proof. reflexivity. Qed.

Example strtok_exhausted : strtok "" = None /\ strtok ":" = None.
Proof. split; reflexivity. Qed.

Example atoi_samples :
  atoi " -12x" = -12 /\ atoi "abc" = 0 /\ atoi "*" = 0 /\
  atoi "+7" = 7 /\ atoi "40000" = -25536.
Proof. repeat split. Qed.

Example atol_sample : to_ulong (atol "-1") = 4294967295.
Proof. reflexivity. Qed.

Example trim_sample : trim "  MOVE_TIME:0:FWD:10 " = "MOVE_TIME:0:FWD:10"%string.
Proof. reflexivity. Qed.

Example map_samples :
  map 0 0 100 0 255 = 0 /\ map 1 0 100 0 255 = 2 /\
  map 50 0 100 0 255 = 127 /\ map 100 0 100 0 255 = 255.
Proof. repeat split. Qed.

Example read_available_sample :
  read_available ("GET" ++ String NL "_CAL") "" false
  = ("GET_CAL"%string, true).
Proof. reflexivity. Qed.

(** ** Tokens *)

Lemma scan_token_colon (t rest : string) :
  colon_free t = true ->
  scan_token (t ++ String COLON rest) = (t, rest).
Proof.
  induction t as [|c t IH]; simpl; intros H.
  - reflexivity.
  - apply andb_true_iff in H. destruct H as [Hc Ht].
    apply negb_true_iff in Hc. rewrite Hc, (IH Ht). reflexivity.
Qed.

Lemma scan_token_end (t : string) :
  colon_free t = true -> scan_token t = (t, EmptyString).
Proof.
  induction t as [|c t IH]; simpl; intros H.
  - reflexivity.
  - apply andb_true_iff in H. destruct H as [Hc Ht].
    apply negb_true_iff in Hc. rewrite Hc, (IH Ht). reflexivity.
Qed.

Lemma strtok_first (t rest : string) :
  is_token t = true ->
  strtok (t ++ String COLON rest) = Some (t, rest).
Proof.
  destruct t as [|c t]; [discriminate|]. intros H.
  pose proof (scan_token_colon (String c t) rest H) as Hs.
  simpl in H. apply andb_true_iff in H. destruct H as [Hc _].
  apply negb_true_iff in Hc.
  unfold strtok. simpl skip_delim. rewrite Hc. simpl in Hs |- *.
  rewrite Hc in Hs |- *. exact (f_equal Some Hs).
Qed.

Lemma strtok_last (t : string) :
  is_token t = true -> strtok t = Some (t, EmptyString).
Proof.
  destruct t as [|c t]; [discriminate|]. intros H.
  pose proof (scan_token_end (String c t) H) as Hs.
  simpl in H. apply andb_true_iff in H. destruct H as [Hc _].
  apply negb_true_iff in Hc.
  unfold strtok. simpl skip_delim. rewrite Hc. simpl in Hs |- *.
  rewrite Hc in Hs |- *. exact (f_equal Some Hs).
Qed.

(** ** Argument tokens of a command line *)

Lemma next_token_first (t rest : string) (st : state) :
  is_token t = true ->
  next_token (t ++ ":" ++ rest) st = Some ((t, rest), st).
Proof.
  intros H. unfold next_token.
  change (t ++ ":" ++ rest)%string with (t ++ String COLON rest)%string.
  rewrite (strtok_first t rest H). reflexivity.
Qed.

Lemma next_token_last (t : string) (st : state) :
  is_token t = true -> next_token t st = Some ((t, EmptyString), st).
Proof.
  intros H. unfold next_token. rewrite (strtok_last t H). reflexivity.
Qed.

(** What [dispatch] runs for a MOTOR_CMD line with both arguments. *)
Lemma dispatch_MOTOR_CMD (id_tok sub_cmd : string) (st : state) :
  is_token id_tok = true -> is_token sub_cmd = true ->
  dispatch ("MOTOR_CMD:" ++ id_tok ++ ":" ++ sub_cmd) st =
  (if (sub_cmd =? "FWD")%string then runMotor (atoi id_tok) true
   else if (sub_cmd =? "REV")%string then runMotor (atoi id_tok) false
   else if (sub_cmd =? "STOP")%string then stopMotor (atoi id_tok)
   else if (sub_cmd =? "HOME")%string then homeMotor (atoi id_tok)
   else ret tt) st.
Proof.
  intros Hid Hsub. unfold dispatch.
  change (strtok ("MOTOR_CMD:" ++ id_tok ++ ":" ++ sub_cmd))
    with (Some ("MOTOR_CMD", id_tok ++ ":" ++ sub_cmd)%string).
  cbv beta iota zeta.
  change (stripTrailing "MOTOR_CMD" =? "MOTOR_CMD")%string with true.
  cbv iota. unfold bind at 1.
  rewrite (next_token_first id_tok sub_cmd st Hid).
  unfold bind at 1. rewrite (next_token_last sub_cmd st Hsub).
  reflexivity.
Qed.

(** What [dispatch] runs for a SET_SPEED line with both arguments. *)
Lemma dispatch_SET_SPEED (id_str percent_tok : string) (st : state) :
  is_token id_str = true -> is_token percent_tok = true ->
  dispatch ("SET_SPEED:" ++ id_str ++ ":" ++ percent_tok) st =
  (let speed_val := to_int (map (atoi percent_tok) 0 100 0 255) in
   if (id_str =? "*")%string then
     assign (set_motor_speeds (speed_val, speed_val))
   else if (atoi id_str >=? 0) && (atoi id_str <? 2)
        then assign (store_motor_speed (atoi id_str) speed_val)
        else ret tt) st.
Proof.
  intros Hid Hp. unfold dispatch.
  change (strtok ("SET_SPEED:" ++ id_str ++ ":" ++ percent_tok))
    with (Some ("SET_SPEED", id_str ++ ":" ++ percent_tok)%string).
  cbv beta iota zeta.
  change (stripTrailing "SET_SPEED" =? "MOTOR_CMD")%string with false.
  change (stripTrailing "SET_SPEED" =? "SET_SPEED")%string with true.
  cbv iota. unfold bind at 1.
  rewrite (next_token_first id_str percent_tok st Hid).
  unfold bind at 1. rewrite (next_token_last percent_tok st Hp).
  reflexivity.
Qed.

(** What [dispatch] runs for a MOVE_TIME line with its three arguments. *)
Lemma dispatch_MOVE_TIME (id_tok dir duration_tok : string) (st : state) :
  is_token id_tok = true -> is_token dir = true ->
  is_token duration_tok = true ->
  dispatch ("MOVE_TIME:" ++ id_tok ++ ":" ++ dir ++ ":" ++ duration_tok) st =
  startTimedMove (atoi id_tok) (dir =? "FWD")%string
                 (to_ulong (atol duration_tok)) st.
Proof.
  intros Hid Hdir Hdur. unfold dispatch.
  change (strtok ("MOVE_TIME:" ++ id_tok ++ ":" ++ dir ++ ":" ++ duration_tok))
    with (Some ("MOVE_TIME", id_tok ++ ":" ++ dir ++ ":" ++ duration_tok)%string).
  cbv beta iota zeta.
  repeat match goal with
  | |- context [(stripTrailing "MOVE_TIME" =? ?s)%string] =>
      let b := eval vm_compute in (stripTrailing "MOVE_TIME" =? s)%string in
      change (stripTrailing "MOVE_TIME" =? s)%string with b
  end.
  cbv iota. unfold bind at 1.
  rewrite (next_token_first id_tok _ st Hid).
  unfold bind at 1. rewrite (next_token_first dir _ st Hdir).
  unfold bind at 1. rewrite (next_token_last duration_tok st Hdur).
  reflexivity.
Qed.

(** ** Machine integers in range *)

Lemma to_int_small (x : Z) : -32768 <= x < 32768 -> to_int x = x.
Proof.
  intros H. unfold to_int, wrap_signed, INT_BITS.
  change (2 ^ 16) with 65536. change (2 ^ (16 - 1)) with 32768.
  destruct (Z_lt_le_dec x 0) as [Hneg|Hpos].
  - replace (x mod 65536) with (x + 65536).
    + destruct (Z.ltb_spec (x + 65536) 32768); lia.
    + rewrite <- (Z.mod_small (x + 65536) 65536) by lia.
      rewrite <- (Z_mod_plus_full x 1 65536). reflexivity.
  - rewrite Z.mod_small by lia.
    destruct (Z.ltb_spec x 32768); lia.
Qed.

Lemma to_long_small (x : Z) : -2147483648 <= x < 2147483648 -> to_long x = x.
Proof.
  intros H. unfold to_long, wrap_signed, LONG_BITS.
  change (2 ^ 32) with 4294967296. change (2 ^ (32 - 1)) with 2147483648.
  destruct (Z_lt_le_dec x 0) as [Hneg|Hpos].
  - replace (x mod 4294967296) with (x + 4294967296).
    + destruct (Z.ltb_spec (x + 4294967296) 2147483648); lia.
    + rewrite <- (Z.mod_small (x + 4294967296) 4294967296) by lia.
      rewrite <- (Z_mod_plus_full x 1 4294967296). reflexivity.
  - rewrite Z.mod_small by lia.
    destruct (Z.ltb_spec x 2147483648); lia.
Qed.

(** On a percentage, [map] to 0..255 is the truncated quotient. *)
Lemma map_percent (p : Z) :
  0 <= p <= 100 ->
  to_int (map p 0 100 0 255) = p * 255 / 100 /\ 0 <= p * 255 / 100 <= 255.
Proof.
  intros Hp.
  assert (Hq : 0 <= p * 255 / 100 <= 255).
  { split.
    - apply Z.div_pos; lia.
    - apply Z.div_le_upper_bound; lia. }
  split; [|exact Hq].
  unfold map. change (100 =? 0) with false. cbv iota.
  rewrite !Z.sub_0_r, Z.add_0_r.
  rewrite (to_long_small p) by lia.
  rewrite (to_long_small 255) by lia.
  rewrite (to_long_small 100) by lia.
  rewrite (to_long_small (p * 255)) by lia.
  unfold cdiv. rewrite Z.quot_div_nonneg by lia.
  rewrite (to_long_small (p * 255 / 100)) by lia.
  rewrite (to_long_small (p * 255 / 100)) by lia.
  apply to_int_small. lia.
Qed.

(** ** C10: motor ids outside {0, 1} *)

(** C10.  For every motor id outside {0, 1}, [runMotor] and [stopMotor]
    leave the whole state as it is (no pin write, no PWM write, nothing
    logged), and a SET_SPEED command whose id token reads as that number
    leaves both stored speed settings (indeed the whole state) unchanged. *)
Theorem outside_motor_ids_are_ignored (id : Z) :
  id < 0 \/ 1 < id ->
  (forall forward st, runMotor id forward st = Some (tt, st)) /\
  (forall st, stopMotor id st = Some (tt, st)) /\
  (forall id_str percent_tok st,
      is_token id_str = true -> is_token percent_tok = true ->
      atoi id_str = id ->
      exists st',
        exec (dispatch ("SET_SPEED:" ++ id_str ++ ":" ++ percent_tok)) st
        = Some st' /\
        motor_speeds (vars st') = motor_speeds (vars st) /\
        st' = st).
Proof.
  intros Hid.
  assert (H0 : (id =? 0) = false) by (apply Z.eqb_neq; lia).
  assert (H1 : (id =? 1) = false) by (apply Z.eqb_neq; lia).
  split; [|split].
  - intros forward st. unfold runMotor. rewrite H0, H1. reflexivity.
  - intros st. unfold stopMotor. rewrite H0, H1. reflexivity.
  - intros id_str percent_tok st Hi Hp Hat.
    exists st. unfold exec.
    rewrite (dispatch_SET_SPEED id_str percent_tok st Hi Hp).
    cbv zeta.
    destruct (String.eqb_spec id_str "*") as [Hstar|_].
    + exfalso. subst id_str. vm_compute in Hat. lia.
    + rewrite Hat.
      replace ((id >=? 0) && (id <? 2)) with false.
      * repeat split; reflexivity.
      * symmetry. apply andb_false_iff.
        destruct Hid; [left; rewrite Z.geb_leb; apply Z.leb_gt; lia
                      |right; apply Z.ltb_ge; lia].
Qed.

Lemma outside_motor_ids_witness :
  runMotor 5 true (power_on erased_eeprom idle_pins idle_pins)
  = Some (tt, power_on erased_eeprom idle_pins idle_pins) /\
  stopMotor (-1) (power_on erased_eeprom idle_pins idle_pins)
  = Some (tt, power_on erased_eeprom idle_pins idle_pins) /\
  exists st',
    exec (dispatch "SET_SPEED:7:40")
         (power_on erased_eeprom idle_pins idle_pins) = Some st' /\
    motor_speeds (vars st') = (255, 255).
Proof.
  split; [|split].
  - exact (proj1 (outside_motor_ids_are_ignored 5 (or_intror eq_refl))
                 true _).
  - exact (proj1 (proj2 (outside_motor_ids_are_ignored (-1)
                           (or_introl eq_refl))) _).
  - destruct (proj2 (proj2 (outside_motor_ids_are_ignored 7
                              (or_intror eq_refl)))
                    "7" "40" (power_on erased_eeprom idle_pins idle_pins)
                    eq_refl eq_refl eq_refl)
      as (st' & Hrun & Hspeed & _).
    exists st'. split; [exact Hrun|]. rewrite Hspeed. reflexivity.
Defined.

(** ** The motor functions, as the calls they log *)

(** Unfold the monad and the board primitives on an explicit state. *)
Ltac run_sketch :=
  cbv beta iota zeta delta
    [bind ret call digitalWrite analogWrite pinMode delay assign load millis
     digitalRead analogRead EEPROM_get EEPROM_put_int exec
     vars hw log clock rx din ain eeprom
     set_log set_clock set_rx set_eeprom].

(** Evaluate [strtok], [stripTrailing], string comparisons and number
    parsing wherever their arguments are string literals. *)
Ltac literal s :=
  lazymatch s with
  | EmptyString => idtac
  | String _ ?r => literal r
  end.

Ltac eval_tokens :=
  repeat match goal with
  | |- context [strtok ?s] =>
      literal s; let v := eval vm_compute in (strtok s) in
      change (strtok s) with v; cbv beta iota zeta
  | |- context [stripTrailing ?s] =>
      literal s; let v := eval vm_compute in (stripTrailing s) in
      change (stripTrailing s) with v
  | |- context [String.eqb ?a ?b] =>
      literal a; literal b; let v := eval vm_compute in (String.eqb a b) in
      change (String.eqb a b) with v; cbv beta iota zeta
  | |- context [atoi ?s] =>
      literal s; let v := eval vm_compute in (atoi s) in
      change (atoi s) with v
  | |- context [atol ?s] =>
      literal s; let v := eval vm_compute in (atol s) in
      change (atol s) with v
  end.

Ltac flatten_log := rewrite <- ?app_assoc; cbn [app]; rewrite ?app_nil_r.

Lemma stopMotor_calls (id : Z) (st : state) :
  stopMotor id st
  = Some (tt, mkState (vars st)
                (set_log (log (hw st) ++ stop_calls id) (hw st))).
Proof.
  destruct st as [g [e c r d a l]].
  unfold stopMotor, stop_calls.
  destruct (id =? 0); [|destruct (id =? 1)]; run_sketch; flatten_log;
    reflexivity.
Qed.

Lemma pin_drive_app (l l' : list hw_call) (pin : Z) :
  pin_drive (l ++ l') pin = fold_left (drive_of pin) l' (pin_drive l pin).
Proof. unfold pin_drive. apply fold_left_app. Qed.

(** ** C8: an explicit STOP during a timed move *)

(** C8.  MOTOR_CMD:<id>:STOP dispatched while a timed move for the same
    motor id is active logs exactly the calls of [stopMotor]: for motor 0
    (resp. 1) the direction pins IN1, IN2 (resp. IN3, IN4) are left low and
    the enable output ENA (resp. ENB) at PWM 0.  No global changes: the
    slot's motor id, start timestamp and duration are as before and the
    scheduler still sees the move as active. *)
Theorem stop_command_keeps_timed_move (id_tok : string) (st : state) :
  is_token id_tok = true ->
  timed_move_active (vars st) = true ->
  timed_move_motor_id (vars st) = atoi id_tok ->
  exists st',
    exec (dispatch ("MOTOR_CMD:" ++ id_tok ++ ":STOP")) st = Some st' /\
    log (hw st') = log (hw st) ++ stop_calls (atoi id_tok) /\
    (atoi id_tok = 0 ->
     pin_drive (log (hw st')) IN1 = Some (Digital LOW) /\
     pin_drive (log (hw st')) IN2 = Some (Digital LOW) /\
     pin_drive (log (hw st')) ENA = Some (Pwm 0)) /\
    (atoi id_tok = 1 ->
     pin_drive (log (hw st')) IN3 = Some (Digital LOW) /\
     pin_drive (log (hw st')) IN4 = Some (Digital LOW) /\
     pin_drive (log (hw st')) ENB = Some (Pwm 0)) /\
    vars st' = vars st /\
    timed_move_motor_id (vars st') = atoi id_tok /\
    move_timer_start (vars st') = move_timer_start (vars st) /\
    move_duration (vars st') = move_duration (vars st) /\
    timed_move_active (vars st') = true /\
    active_moves (vars st') = active_moves (vars st).
Proof.
  intros Htok Hactive Hslot.
  eexists. unfold exec.
  change ("MOTOR_CMD:" ++ id_tok ++ ":STOP")%string
    with ("MOTOR_CMD:" ++ id_tok ++ ":" ++ "STOP")%string.
  rewrite (dispatch_MOTOR_CMD id_tok "STOP" st Htok eq_refl).
  change ("STOP" =? "FWD")%string with false.
  change ("STOP" =? "REV")%string with false.
  change ("STOP" =? "STOP")%string with true.
  cbv iota. rewrite stopMotor_calls.
  split; [reflexivity|].
  destruct st as [g [e c r d a l]]. cbn [vars hw log set_log] in *.
  split; [reflexivity|].
  split; [|split].
  - intros H0. rewrite H0. rewrite !pin_drive_app. repeat split.
  - intros H1. rewrite H1. rewrite !pin_drive_app. repeat split.
  - repeat split; auto.
Qed.

Lemma stop_command_keeps_timed_move_witness :
  exists st',
    exec (dispatch "MOTOR_CMD:0:STOP")
         (mkState (set_timed_move_motor_id 0
                     (set_move_duration 1000 initial_globals))
                  (mkBoard erased_eeprom 10 "" idle_pins idle_pins []))
    = Some st' /\
    log (hw st')
    = [DigitalWrite IN1 LOW; DigitalWrite IN2 LOW; AnalogWrite ENA 0] /\
    active_moves (vars st') = [mkTimedMove 0 0 1000].
Proof.
  destruct (stop_command_keeps_timed_move "0"
              (mkState (set_timed_move_motor_id 0
                          (set_move_duration 1000 initial_globals))
                       (mkBoard erased_eeprom 10 "" idle_pins idle_pins []))
              eq_refl eq_refl eq_refl)
    as (st' & Hrun & Hlog & _ & _ & _ & _ & _ & _ & _ & Hmoves).
  exists st'. split; [exact Hrun|]. split; [exact Hlog|exact Hmoves].
Defined.

(** ** C2: SET_SPEED *)

(** C2, as stated, fails.  SET_SPEED:0:1 after boot stores the speed
    setting 2 for motor 0, while round(1 * 255 / 100) = round(2.55) is 3;
    2 is not an integer nearest to 2.55 under any rounding of halves. *)
Lemma set_speed_is_not_rounded :
  exists st0 st',
    setup (power_on erased_eeprom idle_pins idle_pins) = Some (tt, st0) /\
    exec (dispatch "SET_SPEED:0:1") st0 = Some st' /\
    fst (motor_speeds (vars st')) = 2 /\
    spec_round_pwm 1 = 3 /\
    fst (motor_speeds (vars st')) <> spec_round_pwm 1 /\
    ~ nearest_to (fst (motor_speeds (vars st'))) (1 * 255) 100.
Proof.
  eexists. eexists.
  split; [vm_compute; reflexivity|].
  split; [vm_compute; reflexivity|].
  split; [reflexivity|].
  split; [reflexivity|].
  split; [vm_compute; discriminate|].
  unfold nearest_to. vm_compute. intros H. apply H. reflexivity.
Qed.

(** C2, amended.  For a SET_SPEED command whose percent token reads as p
    in [0,100], the stored speed setting is the quotient p * 255 / 100
    truncated to an integer (the [map] utility), which lies in [0,255]:
    with id "*" both motors get it, with an id reading 0 or 1 that motor
    gets it and the other keeps its setting.  Nothing is output. *)
Theorem set_speed_truncates (id_str percent_tok : string) (st : state) :
  is_token id_str = true -> is_token percent_tok = true ->
  0 <= atoi percent_tok <= 100 ->
  let v := atoi percent_tok * 255 / 100 in
  0 <= v <= 255 /\
  exists st',
    exec (dispatch ("SET_SPEED:" ++ id_str ++ ":" ++ percent_tok)) st
    = Some st' /\
    hw st' = hw st /\
    (id_str = "*"%string -> motor_speeds (vars st') = (v, v)) /\
    (id_str <> "*"%string -> atoi id_str = 0 ->
     motor_speeds (vars st') = (v, snd (motor_speeds (vars st)))) /\
    (id_str <> "*"%string -> atoi id_str = 1 ->
     motor_speeds (vars st') = (fst (motor_speeds (vars st)), v)).
Proof.
  intros Hid Hp Hrange v.
  destruct (map_percent (atoi percent_tok) Hrange) as [Hmap Hv].
  split; [exact Hv|].
  pose proof (dispatch_SET_SPEED id_str percent_tok st Hid Hp) as Hd.
  cbv zeta in Hd. rewrite Hmap in Hd. fold v in Hd.
  unfold exec. rewrite Hd. clear Hd.
  destruct st as [g b].
  destruct (String.eqb_spec id_str "*") as [Hstar|Hstar].
  - eexists. run_sketch. split; [reflexivity|]. split; [reflexivity|].
    split; [reflexivity|]. split; intros Hn; contradiction.
  - destruct (Z.eq_dec (atoi id_str) 0) as [H0|H0];
      [|destruct (Z.eq_dec (atoi id_str) 1) as [H1|H1]].
    + rewrite H0. eexists. run_sketch. cbn.
      split; [reflexivity|]. split; [reflexivity|].
      split; [intros; contradiction|].
      split; [reflexivity|]. intros _ H1. discriminate.
    + rewrite H1. eexists. run_sketch. cbn.
      split; [reflexivity|]. split; [reflexivity|].
      split; [intros; contradiction|].
      split; [intros _ H; discriminate|reflexivity].
    + destruct ((atoi id_str >=? 0) && (atoi id_str <? 2)); eexists;
        run_sketch;
        (split; [reflexivity|]); (split; [reflexivity|]);
        (split; [intros; contradiction|]);
        (split; intros; contradiction).
Qed.

Lemma set_speed_truncates_witness :
  exists st',
    exec (dispatch "SET_SPEED:*:50")
         (power_on erased_eeprom idle_pins idle_pins) = Some st' /\
    motor_speeds (vars st') = (127, 127).
Proof.
  assert (Hrange : 0 <= atoi "50" <= 100)
    by (vm_compute; split; discriminate).
  destruct (set_speed_truncates "*" "50"
              (power_on erased_eeprom idle_pins idle_pins)
              eq_refl eq_refl Hrange)
    as (_ & st' & Hrun & _ & Hstar & _).
  exists st'. split; [exact Hrun|exact (Hstar eq_refl)].
Defined.

(** ** C4: calibration loaded at boot *)

(** What [setup] leaves in the two calibration variables. *)
Lemma setup_calibration (st : state) :
  exists st',
    setup st = Some (tt, st') /\
    ms_per_mm (vars st')
    = (let stored := eeprom_read_int (eeprom (hw st)) EEPROM_ADDR_MS_PER_MM in
       if stored <=? 0 then 50 else stored) /\
    ms_per_deg (vars st')
    = (let stored := eeprom_read_int (eeprom (hw st)) EEPROM_ADDR_MS_PER_DEG in
       if stored <=? 0 then 10 else stored).
Proof.
  destruct st as [g [e c r d a l]].
  unfold setup, stopMotor.
  change (0 =? 0) with true. change (1 =? 0) with false.
  change (1 =? 1) with true.
  run_sketch.
  cbn [ms_per_mm ms_per_deg set_ms_per_mm set_ms_per_deg].
  destruct (eeprom_read_int e EEPROM_ADDR_MS_PER_MM <=? 0);
    run_sketch; cbn [ms_per_mm ms_per_deg set_ms_per_mm set_ms_per_deg];
    destruct (eeprom_read_int e EEPROM_ADDR_MS_PER_DEG <=? 0);
    run_sketch; cbn [ms_per_mm ms_per_deg set_ms_per_mm set_ms_per_deg];
    eexists; (split; [reflexivity|]); split; reflexivity.
Qed.

(** C4.  [setup] always completes.  Afterwards ms_per_mm is the [int]
    loaded from EEPROM address 0 when that is positive and the default 50
    when it is not; ms_per_deg is the [int] loaded from address 4 when that
    is positive and the default 10 when it is not.  On an erased EEPROM
    (every byte 0xFF, both values read -1) this gives (50, 10). *)
Theorem setup_loads_calibration :
  (forall st,
    exists st',
      setup st = Some (tt, st') /\
      ms_per_mm (vars st')
      = (let stored :=
           eeprom_read_int (eeprom (hw st)) EEPROM_ADDR_MS_PER_MM in
         if stored <=? 0 then 50 else stored) /\
      ms_per_deg (vars st')
      = (let stored :=
           eeprom_read_int (eeprom (hw st)) EEPROM_ADDR_MS_PER_DEG in
         if stored <=? 0 then 10 else stored)) /\
  (exists st',
      setup (power_on erased_eeprom idle_pins idle_pins) = Some (tt, st') /\
      eeprom_read_int erased_eeprom EEPROM_ADDR_MS_PER_MM = -1 /\
      eeprom_read_int erased_eeprom EEPROM_ADDR_MS_PER_DEG = -1 /\
      ms_per_mm (vars st') = 50 /\ ms_per_deg (vars st') = 10).
Proof.
  split; [exact setup_calibration|].
  eexists. split; [vm_compute; reflexivity|]. repeat split.
Qed.

(** ** C5: SET_CAL, GET_CAL and the persistent store *)

(** An [int] written to the EEPROM is read back from the same address. *)
Lemma eeprom_read_write (e : Z -> Z) (addr v : Z) :
  -32768 <= v < 32768 ->
  eeprom_read_int (eeprom_write_int e addr v) addr = v.
Proof.
  intros Hv. unfold eeprom_read_int, eeprom_write_int.
  rewrite Z.eqb_refl.
  replace (addr + 1 =? addr) with false by (symmetry; apply Z.eqb_neq; lia).
  rewrite Z.eqb_refl.
  rewrite !Z.mod_mod by lia.
  rewrite <- (Z.rem_mul_r v 256 256) by lia.
  change (256 * 256) with (2 ^ INT_BITS).
  unfold to_int, wrap_signed. rewrite Z.mod_mod by (unfold INT_BITS; lia).
  apply (to_int_small v Hv).
Qed.

Lemma dispatch_SET_CAL_MS_PER_MM_60 (st : state) :
  dispatch "SET_CAL:MS_PER_MM:60" st
  = Some (tt,
          mkState (set_ms_per_mm 60 (vars st))
            (set_eeprom
               (eeprom_write_int (eeprom (hw st)) EEPROM_ADDR_MS_PER_MM 60)
               (set_log
                  (log (hw st) ++
                   [EEPROM_put EEPROM_ADDR_MS_PER_MM 60;
                    Serial_print "SET_CAL:MS_PER_MM:";
                    Serial_println_int 60])
                  (hw st)))).
Proof.
  destruct st as [g [e c r d a l]].
  unfold dispatch. eval_tokens. run_sketch.
  cbn [ms_per_mm set_ms_per_mm]. flatten_log. reflexivity.
Qed.

Lemma dispatch_GET_CAL (st : state) :
  dispatch "GET_CAL" st
  = Some (tt,
          mkState (vars st)
            (set_log
               (log (hw st) ++
                [Serial_print "CAL:MS_PER_MM:";
                 Serial_print_int (ms_per_mm (vars st));
                 Serial_print ":MS_PER_DEG:";
                 Serial_println_int (ms_per_deg (vars st))])
               (hw st))).
Proof.
  destruct st as [g [e c r d a l]].
  unfold dispatch. eval_tokens. run_sketch. flatten_log. reflexivity.
Qed.

(** C5.  From any state, SET_CAL:MS_PER_MM:60 followed by GET_CAL makes
    GET_CAL print the one line CAL:MS_PER_MM:60:MS_PER_DEG:<v>, v being
    the ms_per_deg held before the SET_CAL (and still held afterwards);
    and [setup] run after a power cycle on the EEPROM the commands left
    loads ms_per_mm = 60. *)
Theorem set_cal_then_get_cal (st : state) :
  exists st1 st2,
    exec (dispatch "SET_CAL:MS_PER_MM:60") st = Some st1 /\
    exec (dispatch "GET_CAL") st1 = Some st2 /\
    log (hw st2)
    = log (hw st1) ++
      [Serial_print "CAL:MS_PER_MM:"; Serial_print_int 60;
       Serial_print ":MS_PER_DEG:";
       Serial_println_int (ms_per_deg (vars st))] /\
    serial_text
      [Serial_print "CAL:MS_PER_MM:"; Serial_print_int 60;
       Serial_print ":MS_PER_DEG:";
       Serial_println_int (ms_per_deg (vars st))]
    = Some ("CAL:MS_PER_MM:60:MS_PER_DEG:"
            ++ dec (ms_per_deg (vars st)) ++ CRLF)%string /\
    ms_per_deg (vars st2) = ms_per_deg (vars st) /\
    ms_per_mm (vars st2) = 60 /\
    forall din' ain',
    exists st3,
      setup (power_on (eeprom (hw st2)) din' ain') = Some (tt, st3) /\
      ms_per_mm (vars st3) = 60.
Proof.
  eexists. eexists. unfold exec.
  rewrite dispatch_SET_CAL_MS_PER_MM_60.
  split; [reflexivity|].
  rewrite dispatch_GET_CAL.
  split; [reflexivity|].
  destruct st as [g [e c r d a l]].
  cbn [vars hw log eeprom set_log set_eeprom ms_per_mm ms_per_deg
       set_ms_per_mm].
  split; [reflexivity|].
  split; [reflexivity|].
  split; [reflexivity|]. split; [reflexivity|].
  intros din' ain'.
  destruct (setup_calibration
              (power_on (eeprom_write_int e EEPROM_ADDR_MS_PER_MM 60)
                        din' ain'))
    as (st3 & Hsetup & Hmm & _).
  exists st3. split; [exact Hsetup|].
  rewrite Hmm. cbn [power_on hw eeprom]. cbv zeta.
  rewrite eeprom_read_write by lia. reflexivity.
Qed.

(** ** C9: PIN_TEST *)

(** C9, as stated, fails.  After boot both enable outputs carry PWM 0
    ([setup] stops both motors); after PIN_TEST they carry PWM 255, the
    default speed settings, not the values they carried before. *)
Lemma pin_test_does_not_restore_pwm :
  exists st0 st',
    setup (power_on erased_eeprom idle_pins idle_pins) = Some (tt, st0) /\
    pin_drive (log (hw st0)) ENA = Some (Pwm 0) /\
    pin_drive (log (hw st0)) ENB = Some (Pwm 0) /\
    exec (dispatch "PIN_TEST") st0 = Some st' /\
    pin_drive (log (hw st')) ENA = Some (Pwm 255) /\
    pin_drive (log (hw st')) ENB = Some (Pwm 255) /\
    pin_drive (log (hw st')) ENA <> pin_drive (log (hw st0)) ENA.
Proof.
  eexists. eexists.
  split; [vm_compute; reflexivity|].
  split; [reflexivity|]. split; [reflexivity|].
  split; [vm_compute; reflexivity|].
  split; [reflexivity|]. split; [reflexivity|].
  vm_compute. discriminate.
Qed.

(** C9, amended.  PIN_TEST makes exactly these calls, in this order: PWM 0
    on ENA and ENB; IN1 high, IN2 low, IN3 high, IN4 low; a 200 ms delay;
    IN1, IN2, IN3, IN4 low; the line PIN_TEST:OK; then on ENA and ENB the
    speed settings motor_speeds[0] and motor_speeds[1] as stored when the
    command began.  No global variable changes. *)
Theorem pin_test_writes_speed_settings (st : state) :
  exists st',
    exec (dispatch "PIN_TEST") st = Some st' /\
    vars st' = vars st /\
    log (hw st')
    = log (hw st) ++
      [AnalogWrite ENA 0; AnalogWrite ENB 0;
       DigitalWrite IN1 HIGH; DigitalWrite IN2 LOW;
       DigitalWrite IN3 HIGH; DigitalWrite IN4 LOW;
       Delay 200;
       DigitalWrite IN1 LOW; DigitalWrite IN2 LOW;
       DigitalWrite IN3 LOW; DigitalWrite IN4 LOW;
       Serial_println "PIN_TEST:OK";
       AnalogWrite ENA (fst (motor_speeds (vars st)));
       AnalogWrite ENB (snd (motor_speeds (vars st)))] /\
    serial_text [Serial_println "PIN_TEST:OK"]
    = Some ("PIN_TEST:OK" ++ CRLF)%string /\
    pin_drive (log (hw st')) ENA = Some (Pwm (fst (motor_speeds (vars st)))) /\
    pin_drive (log (hw st')) ENB = Some (Pwm (snd (motor_speeds (vars st)))) /\
    pin_drive (log (hw st')) IN1 = Some (Digital LOW) /\
    pin_drive (log (hw st')) IN2 = Some (Digital LOW) /\
    pin_drive (log (hw st')) IN3 = Some (Digital LOW) /\
    pin_drive (log (hw st')) IN4 = Some (Digital LOW).
Proof.
  destruct st as [g [e c r d a l]].
  eexists. unfold dispatch. eval_tokens. run_sketch. flatten_log.
  split; [reflexivity|]. cbn [vars hw log].
  split; [reflexivity|]. split; [reflexivity|]. split; [reflexivity|].
  rewrite !pin_drive_app. repeat split.
Qed.

(** ** C6: sensor polling *)

(** C6.  [updateSensorStates] polls exactly when at least 250 ms (modulo
    2^32) have passed since [last_sensor_check].  A poll records the time
    and, for each sensor pin, stores the level just read and prints
    SENSOR_STATE:<pin>:<level> if and only if that level differs from the
    stored one.  Otherwise nothing changes.  The result is the same
    whatever [sensor_report_enabled] holds: the flag is carried through
    unread. *)
Theorem sensor_poll_ignores_report_flag (st : state) :
  let g := vars st in
  let b := hw st in
  let level1 := din b SENSOR_PIN_1 in
  let level2 := din b SENSOR_PIN_2 in
  let polled :=
    mkState
      (set_sensor2_last_state level2
         (set_sensor1_last_state level1
            (set_last_sensor_check (clock b) g)))
      (set_log
         (log b
          ++ sensor_line SENSOR_PIN_1 level1 (sensor1_last_state g)
          ++ sensor_line SENSOR_PIN_2 level2 (sensor2_last_state g))
         b) in
  updateSensorStates st
  = Some (tt, if to_ulong (clock b - last_sensor_check g) >=? 250
              then polled else st) /\
  (forall flag,
      exists st1 st2,
        updateSensorStates st = Some (tt, st1) /\
        updateSensorStates (mkState (set_sensor_report_enabled flag g) b)
        = Some (tt, st2) /\
        hw st2 = hw st1 /\
        vars st2 = set_sensor_report_enabled flag (vars st1)) /\
  serial_text
    [Serial_print "SENSOR_STATE:"; Serial_print_int SENSOR_PIN_1;
     Serial_print ":"; Serial_println_int level1]
  = Some ("SENSOR_STATE:2:" ++ dec level1 ++ CRLF)%string.
Proof.
  destruct st as [g [e c r d a l]]. cbv zeta. cbn [vars hw din clock log].
  assert (Hrun : forall g0,
    updateSensorStates (mkState g0 (mkBoard e c r d a l))
    = Some (tt,
        if to_ulong (c - last_sensor_check g0) >=? 250
        then mkState
               (set_sensor2_last_state (d SENSOR_PIN_2)
                  (set_sensor1_last_state (d SENSOR_PIN_1)
                     (set_last_sensor_check c g0)))
               (mkBoard e c r d a
                  (l ++ sensor_line SENSOR_PIN_1 (d SENSOR_PIN_1)
                                    (sensor1_last_state g0)
                     ++ sensor_line SENSOR_PIN_2 (d SENSOR_PIN_2)
                                    (sensor2_last_state g0)))
        else mkState g0 (mkBoard e c r d a l))).
  { intros g0. unfold updateSensorStates. run_sketch.
    change (to_ulong SENSOR_CHECK_INTERVAL) with 250.
    destruct (to_ulong (c - last_sensor_check g0) >=? 250); [|reflexivity].
    destruct g0 as [s1 s2 inp cpl spd mm deg flag start dur slot lastc].
    cbn [sensor1_last_state sensor2_last_state set_last_sensor_check
         set_sensor1_last_state set_sensor2_last_state].
    unfold sensor_line.
    destruct (Z.eqb_spec (d SENSOR_PIN_1) s1) as [E1|E1];
      cbn [negb]; run_sketch;
      cbn [sensor1_last_state sensor2_last_state set_last_sensor_check
           set_sensor1_last_state set_sensor2_last_state];
      destruct (Z.eqb_spec (d SENSOR_PIN_2) s2) as [E2|E2];
      cbn [negb]; run_sketch;
      cbn [sensor1_last_state sensor2_last_state set_last_sensor_check
           set_sensor1_last_state set_sensor2_last_state];
      rewrite ?E1, ?E2; flatten_log; reflexivity. }
  split; [|split].
  - apply Hrun.
  - intros flag. eexists. eexists.
    split; [apply Hrun|]. split; [apply Hrun|].
    destruct g as [s1 s2 inp cpl spd mm deg flag0 start dur slot lastc].
    cbn [last_sensor_check set_sensor_report_enabled sensor1_last_state
         sensor2_last_state].
    destruct (to_ulong (c - lastc) >=? 250); split; reflexivity.
  - reflexivity.
Qed.

(** ** The timed-move scheduler *)

Lemma runMotor_calls (id : Z) (forward : bool) (st : state) :
  runMotor id forward st
  = Some (tt, mkState (vars st)
                (set_log (log (hw st)
                          ++ run_calls id forward (motor_speeds (vars st)))
                         (hw st))).
Proof.
  destruct st as [g [e c r d a l]].
  unfold runMotor, run_calls.
  destruct (id =? 0); [|destruct (id =? 1)]; run_sketch; flatten_log;
    reflexivity.
Qed.

Lemma serial_output_app (l l' : list hw_call) :
  serial_output (l ++ l') = serial_output l ++ serial_output l'.
Proof. unfold serial_output. apply filter_app. Qed.

Lemma run_calls_silent (id : Z) (forward : bool) (speeds : Z * Z) :
  serial_output (run_calls id forward speeds) = [].
Proof.
  unfold run_calls. destruct (id =? 0); [|destruct (id =? 1)]; reflexivity.
Qed.

Lemma stop_calls_silent (id : Z) : serial_output (stop_calls id) = [].
Proof.
  unfold stop_calls. destruct (id =? 0); [|destruct (id =? 1)]; reflexivity.
Qed.

Lemma startTimedMove_result (id : Z) (forward : bool) (duration : Z)
      (st : state) :
  startTimedMove id forward duration st
  = Some (tt,
          mkState
            (set_move_timer_start (clock (hw st))
               (set_move_duration duration
                  (set_timed_move_motor_id id (vars st))))
            (set_log (log (hw st)
                      ++ run_calls id forward (motor_speeds (vars st)))
                     (hw st))).
Proof.
  unfold startTimedMove. unfold bind at 1 2 3 4.
  destruct st as [g [e c r d a l]]. run_sketch.
  rewrite runMotor_calls. reflexivity.
Qed.

(** Every tick of the scheduler, in one equation: an active move whose
    time has elapsed is stopped and the slot cleared; otherwise nothing
    changes. *)
Lemma updateTimedMove_result (st : state) :
  updateTimedMove st
  = Some (tt,
          if timed_move_active (vars st)
             && (to_ulong (clock (hw st) - move_timer_start (vars st))
                 >=? move_duration (vars st))
          then mkState (set_timed_move_motor_id (-1) (vars st))
                 (set_log (log (hw st)
                           ++ stop_calls (timed_move_motor_id (vars st)))
                          (hw st))
          else st).
Proof.
  destruct st as [g [e c r d a l]].
  unfold updateTimedMove, timed_move_active. run_sketch.
  destruct (negb (timed_move_motor_id g =? -1)); [|reflexivity].
  cbn [andb].
  destruct (to_ulong (c - move_timer_start g) >=? move_duration g);
    [|reflexivity].
  unfold bind. rewrite stopMotor_calls. reflexivity.
Qed.

(** The scheduler never writes to the serial port. *)
Lemma updateTimedMove_silent (st : state) :
  exists st',
    updateTimedMove st = Some (tt, st') /\
    serial_output (log (hw st')) = serial_output (log (hw st)).
Proof.
  rewrite updateTimedMove_result.
  destruct (timed_move_active (vars st)
            && (to_ulong (clock (hw st) - move_timer_start (vars st))
                >=? move_duration (vars st))).
  - eexists. split; [reflexivity|].
    destruct st as [g [e c r d a l]]. cbn [vars hw log set_log].
    rewrite serial_output_app, stop_calls_silent. apply app_nil_r.
  - exists st. split; reflexivity.
Qed.

(** ** C1: completion of a timed move *)

(** C1, on the code.  After boot, MOVE_TIME:0:FWD:1000 is dispatched at
    time 0.  A tick at time 999 changes nothing.  The tick at time 1000
    stops motor 0 and clears the slot, and writes nothing to the serial
    port: no MOVE_DONE:0 line is emitted, although the README says the
    firmware prints MOVE_DONE:<id> after timed moves. *)
Theorem timed_move_completes_without_MOVE_DONE :
  exists st0 st1 st2,
    setup (power_on erased_eeprom idle_pins idle_pins) = Some (tt, st0) /\
    exec (dispatch "MOVE_TIME:0:FWD:1000") st0 = Some st1 /\
    active_moves (vars st1) = [mkTimedMove 0 0 1000] /\
    exec updateTimedMove (receive "" 999 st1) = Some (receive "" 999 st1) /\
    exec updateTimedMove (receive "" 1000 st1) = Some st2 /\
    active_moves (vars st2) = [] /\
    log (hw st2)
    = log (hw st1)
      ++ [DigitalWrite IN1 LOW; DigitalWrite IN2 LOW; AnalogWrite ENA 0] /\
    serial_output (log (hw st2)) = serial_output (log (hw st1)) /\
    ~ In (Serial_println "MOVE_DONE:0") (log (hw st2)) /\
    ~ In (Serial_print "MOVE_DONE:") (log (hw st2)).
Proof.
  eexists. eexists. eexists.
  split; [vm_compute; reflexivity|].
  split; [vm_compute; reflexivity|].
  split; [reflexivity|].
  split; [vm_compute; reflexivity|].
  split; [vm_compute; reflexivity|].
  split; [reflexivity|].
  split; [reflexivity|].
  split; [reflexivity|].
  split; intros H; vm_compute in H;
    repeat (destruct H as [H|H]; [discriminate H|]); exact H.
Qed.

(** ** Reachable states *)

(** The state after boot and one pass of [loop] over received bytes. *)
Lemma reachable_after_line (e din0 ain0 : Z -> Z) (st0 st1 : state)
      (t : Z) (bytes : string) :
  setup (power_on e din0 ain0) = Some (tt, st0) ->
  0 <= t < 2 ^ LONG_BITS ->
  loop (receive bytes t st0) = Some (tt, st1) ->
  reachable st1.
Proof.
  intros Hsetup Ht Hloop.
  apply (reach_loop (receive bytes t st0) st1); [|exact Hloop].
  apply (reach_env st0); [exact (reach_setup e din0 ain0 st0 Hsetup)|].
  exact (env_change st0 t bytes (din (hw st0)) (ain (hw st0)) Ht).
Qed.

(** ** C7: calibration values stay positive? *)

(** SET_CAL:MS_PER_MM:<val> stores whatever [int] the value token reads
    as; no test on its sign is made. *)
Lemma set_cal_stores_any_int (val : string) (st : state) :
  is_token val = true ->
  exists st',
    exec (dispatch ("SET_CAL:MS_PER_MM:" ++ val)) st = Some st' /\
    ms_per_mm (vars st') = atoi val /\
    eeprom (hw st')
    = eeprom_write_int (eeprom (hw st)) EEPROM_ADDR_MS_PER_MM (atoi val).
Proof.
  intros Hval. destruct st as [g [e c r d a l]].
  unfold exec, dispatch.
  change (strtok ("SET_CAL:MS_PER_MM:" ++ val))
    with (Some ("SET_CAL", "MS_PER_MM:" ++ val)%string).
  cbv beta iota zeta. eval_tokens.
  change (strtok ("MS_PER_MM:" ++ val))
    with (Some ("MS_PER_MM", val)%string).
  cbv beta iota zeta. rewrite (strtok_last val Hval). eval_tokens.
  run_sketch. eexists. split; [reflexivity|]. split; reflexivity.
Qed.

(** C7, on the code.  After boot the line SET_CAL:MS_PER_MM:0 arrives; one
    pass of [loop] stores ms_per_mm = 0 (and writes 0 to the EEPROM): a
    reachable state whose calibration is not positive.  [setup] rejects
    the same value at the next boot and falls back to 50. *)
Theorem set_cal_stores_non_positive_value :
  exists st0 st1 st2,
    setup (power_on erased_eeprom idle_pins idle_pins) = Some (tt, st0) /\
    loop (receive ("SET_CAL:MS_PER_MM:0" ++ String NL "") 5 st0)
    = Some (tt, st1) /\
    reachable st1 /\
    ms_per_mm (vars st1) = 0 /\
    ~ 0 < ms_per_mm (vars st1) /\
    eeprom_read_int (eeprom (hw st1)) EEPROM_ADDR_MS_PER_MM = 0 /\
    setup (power_on (eeprom (hw st1)) idle_pins idle_pins) = Some (tt, st2) /\
    ms_per_mm (vars st2) = 50.
Proof.
  eexists. eexists. eexists.
  split; [vm_compute; reflexivity|].
  match goal with
  | |- loop (receive _ _ ?s) = _ /\ _ => set (st0 := s)
  end.
  split; [vm_compute; reflexivity|].
  split.
  { apply (reachable_after_line erased_eeprom idle_pins idle_pins st0 _ 5
             ("SET_CAL:MS_PER_MM:0" ++ String NL ""));
      [vm_compute; reflexivity|unfold LONG_BITS; lia|vm_compute; reflexivity]. }
  split; [reflexivity|].
  split; [vm_compute; discriminate|].
  split; [reflexivity|].
  split; [vm_compute; reflexivity|].
  reflexivity.
Qed.

(** ** C3: the single timed-move slot *)

(** A MOVE_TIME line without its duration passes a null pointer to
    [atol]: the behaviour is undefined. *)
Lemma dispatch_MOVE_TIME_without_duration (st : state) :
  dispatch "MOVE_TIME:0:FWD" st = None.
Proof.
  unfold dispatch. eval_tokens. unfold bind, next_token. eval_tokens.
  reflexivity.
Qed.

(** C3, as stated, fails.  After boot, one pass of [loop] over the line
    MOVE_TIME:0:FWD:1000 leaves a reachable state with the move for motor 0
    active.  Dispatching MOVE_TIME:-1:FWD:500 there overwrites the slot
    with id -1, the "none" sentinel: no move is active afterwards (the
    scheduler will never complete one), while motor 0 is still driven. *)
Lemma move_time_with_sentinel_id_leaves_no_move :
  exists st0 st1 st2,
    setup (power_on erased_eeprom idle_pins idle_pins) = Some (tt, st0) /\
    loop (receive ("MOVE_TIME:0:FWD:1000" ++ String NL "") 5 st0)
    = Some (tt, st1) /\
    reachable st1 /\
    active_moves (vars st1) = [mkTimedMove 0 5 1000] /\
    exec (dispatch "MOVE_TIME:-1:FWD:500") (receive "" 7 st1) = Some st2 /\
    timed_move_motor_id (vars st2) = -1 /\
    move_timer_start (vars st2) = 7 /\
    move_duration (vars st2) = 500 /\
    active_moves (vars st2) = [] /\
    length (active_moves (vars st2)) <> 1%nat /\
    pin_drive (log (hw st2)) IN1 = Some (Digital HIGH) /\
    pin_drive (log (hw st2)) ENA = Some (Pwm 255).
Proof.
  eexists. eexists. eexists.
  split; [vm_compute; reflexivity|].
  match goal with
  | |- loop (receive _ _ ?s) = _ /\ _ => set (st0 := s)
  end.
  split; [vm_compute; reflexivity|].
  split.
  { apply (reachable_after_line erased_eeprom idle_pins idle_pins st0 _ 5
             ("MOVE_TIME:0:FWD:1000" ++ String NL ""));
      [vm_compute; reflexivity|unfold LONG_BITS; lia|vm_compute; reflexivity]. }
  split; [reflexivity|].
  split; [vm_compute; reflexivity|].
  repeat (split; [reflexivity|]).
  split; [vm_compute; discriminate|].
  split; reflexivity.
Qed.

(** The slot holds at most one move, and holds the sentinel exactly when
    it holds none.  This is how the three slot variables are read; it
    holds of every state. *)
Lemma slot_invariant (g : globals) :
  (length (active_moves g) <= 1)%nat /\
  (timed_move_motor_id g = -1 <-> active_moves g = []).
Proof.
  unfold active_moves, timed_move_active.
  destruct (Z.eqb_spec (timed_move_motor_id g) (-1)) as [E|E]; cbn.
  - split; [lia|]. split; auto.
  - split; [lia|]. split; [contradiction|discriminate].
Qed.

(** C3, amended.  In every reachable state at most one timed move is
    active, and the slot's motor id is -1 exactly when none is.  A
    MOVE_TIME command with its three arguments, dispatched while a move is
    active, is defined (no null token) and prints nothing; it overwrites
    the slot's id, start timestamp (the current time) and duration.  When
    the id read is not -1 this leaves exactly one active move, the new
    one; when it is -1 no move is active afterwards. *)
Theorem move_time_replaces_slot :
  (forall st, reachable st ->
     (length (active_moves (vars st)) <= 1)%nat /\
     (timed_move_motor_id (vars st) = -1 <-> active_moves (vars st) = [])) /\
  (forall st id_tok dir duration_tok,
     reachable st ->
     timed_move_active (vars st) = true ->
     is_token id_tok = true -> is_token dir = true ->
     is_token duration_tok = true ->
     exists st',
       exec (dispatch ("MOVE_TIME:" ++ id_tok ++ ":" ++ dir ++ ":"
                       ++ duration_tok)) st = Some st' /\
       timed_move_motor_id (vars st') = atoi id_tok /\
       move_timer_start (vars st') = clock (hw st) /\
       move_duration (vars st') = to_ulong (atol duration_tok) /\
       serial_output (log (hw st')) = serial_output (log (hw st)) /\
       (atoi id_tok <> -1 ->
        active_moves (vars st')
        = [mkTimedMove (atoi id_tok) (clock (hw st))
                       (to_ulong (atol duration_tok))]) /\
       (atoi id_tok = -1 -> active_moves (vars st') = [])).
Proof.
  split.
  - intros st _. apply slot_invariant.
  - intros st id_tok dir duration_tok _ _ Hid Hdir Hdur.
    eexists. unfold exec.
    rewrite (dispatch_MOVE_TIME id_tok dir duration_tok st Hid Hdir Hdur).
    rewrite startTimedMove_result.
    split; [reflexivity|].
    destruct st as [g [e c r d a l]].
    cbn [vars hw log clock set_log].
    destruct g as [s1 s2 inp cpl spd mm deg flag start dur slot lastc].
    unfold active_moves, timed_move_active.
    cbn [timed_move_motor_id move_timer_start move_duration motor_speeds
         set_timed_move_motor_id set_move_duration set_move_timer_start].
    split; [reflexivity|]. split; [reflexivity|]. split; [reflexivity|].
    split.
    { rewrite serial_output_app, run_calls_silent. apply app_nil_r. }
    split; intros Hsent.
    + apply Z.eqb_neq in Hsent. rewrite Hsent. reflexivity.
    + rewrite Hsent. reflexivity.
Qed.

Lemma move_time_replaces_slot_witness :
  exists st0 st1 st2,
    setup (power_on erased_eeprom idle_pins idle_pins) = Some (tt, st0) /\
    loop (receive ("MOVE_TIME:0:FWD:1000" ++ String NL "") 5 st0)
    = Some (tt, st1) /\
    active_moves (vars st1) = [mkTimedMove 0 5 1000] /\
    exec (dispatch "MOVE_TIME:1:REV:300") st1 = Some st2 /\
    active_moves (vars st2) = [mkTimedMove 1 5 300].
Proof.
  eexists. eexists.
  assert (Hsetup : setup (power_on erased_eeprom idle_pins idle_pins)
                   = Some (tt, ?[s0])) by (vm_compute; reflexivity).
  match type of Hsetup with _ = Some (tt, ?s) => set (st0 := s) in * end.
  assert (Hloop : loop (receive ("MOVE_TIME:0:FWD:1000" ++ String NL "") 5 st0)
                  = Some (tt, ?[s1])) by (vm_compute; reflexivity).
  match type of Hloop with _ = Some (tt, ?s) => set (st1 := s) in * end.
  assert (Hreach : reachable st1).
  { apply (reachable_after_line erased_eeprom idle_pins idle_pins st0 st1 5
             ("MOVE_TIME:0:FWD:1000" ++ String NL "") Hsetup);
      [unfold LONG_BITS; lia|exact Hloop]. }
  destruct (proj2 move_time_replaces_slot st1 "1" "REV" "300"
              Hreach eq_refl eq_refl eq_refl eq_refl)
    as (st2 & Hrun & _ & _ & _ & _ & Hnew & _).
  exists st2.
  split; [exact Hsetup|]. split; [exact Hloop|].
  split; [reflexivity|]. split; [exact Hrun|].
  apply Hnew. vm_compute. discriminate.
Defined.

(** * Further properties of the sketch *)

(** ** Strings *)

Lemma append_nil_r (s : string) : (s ++ "")%string = s.
Proof. induction s as [|c s IH]; cbn; [reflexivity|now rewrite IH]. Qed.

Lemma append_assoc (s1 s2 s3 : string) :
  ((s1 ++ s2) ++ s3)%string = (s1 ++ (s2 ++ s3))%string.
Proof. induction s1 as [|c s1 IH]; cbn; [reflexivity|now rewrite IH]. Qed.

Lemma length_append (s1 s2 : string) :
  String.length (s1 ++ s2) = (String.length s1 + String.length s2)%nat.
Proof. induction s1 as [|c s1 IH]; cbn; [reflexivity|now rewrite IH]. Qed.

Lemma skip_delim_length (s : string) :
  (String.length (skip_delim s) <= String.length s)%nat.
Proof.
  induction s as [|c s IH]; cbn; [lia|].
  destruct (Ascii.eqb c COLON); cbn; lia.
Qed.

Lemma skip_delim_colons (colons s : string) :
  all_chars (fun c => Ascii.eqb c COLON) colons = true ->
  skip_delim (colons ++ s) = skip_delim s.
Proof.
  induction colons as [|c colons IH]; cbn; intros H; [reflexivity|].
  apply andb_true_iff in H. destruct H as [Hc Hr].
  rewrite Hc. exact (IH Hr).
Qed.

Lemma scan_token_inv (s t rest : string) :
  scan_token s = (t, rest) ->
  colon_free t = true /\
  (s = (t ++ String COLON rest)%string \/ (s = t /\ rest = EmptyString)).
Proof.
  revert t rest. induction s as [|c s IH]; cbn; intros t rest H.
  - inversion H; subst. split; [reflexivity|right; split; reflexivity].
  - destruct (Ascii.eqb c COLON) eqn:Hc.
    + inversion H; subst. apply Ascii.eqb_eq in Hc. subst c.
      split; [reflexivity|left; reflexivity].
    + destruct (scan_token s) as [t' rest'] eqn:Hs.
      inversion H; subst. destruct (IH t' rest eq_refl) as [Hfree Hshape].
      split.
      * cbn. rewrite Hc. exact Hfree.
      * destruct Hshape as [Hl|[Hr Hn]].
        -- left. cbn. now rewrite <- Hl.
        -- right. split; [now rewrite <- Hr|exact Hn].
Qed.

(** ** The tokenizer *)

(** Whatever [strtok] returns is a proper token: non-empty and free
    of ':'.  It is the text after the leading colons up to the next colon
    (or to the end, and then nothing is left), and what is left for the
    next call is strictly shorter than the text given. *)
Lemma strtok_yields_a_token (s t rest : string) :
  strtok s = Some (t, rest) ->
  is_token t = true /\
  (skip_delim s = (t ++ ":" ++ rest)%string
   \/ (skip_delim s = t /\ rest = EmptyString)) /\
  (String.length rest < String.length s)%nat.
Proof.
  unfold strtok. intros H.
  pose proof (skip_delim_length s) as Hlen.
  destruct (skip_delim s) as [|c s'] eqn:Hskip; [discriminate|].
  assert (Hc : Ascii.eqb c COLON = false).
  { destruct s as [|c0 s0]; [discriminate|].
    clear Hlen. revert c0 Hskip. induction s0 as [|c1 s1 IH]; intros c0 Hskip.
    - cbn in Hskip. destruct (Ascii.eqb c0 COLON) eqn:E; [discriminate|].
      now inversion Hskip; subst.
    - cbn in Hskip. destruct (Ascii.eqb c0 COLON) eqn:E.
      + apply (IH c1). exact Hskip.
      + now inversion Hskip; subst. }
  assert (Hscan : scan_token (String c s') = (t, rest)) by congruence.
  clear H.
  destruct (scan_token_inv _ _ _ Hscan) as [Hfree Hshape].
  assert (Htok : is_token t = true).
  { destruct t as [|ct t']; [|exact Hfree].
    destruct Hshape as [Hl|[Hr _]]; [|discriminate].
    cbn in Hl. inversion Hl; subst. discriminate. }
  split; [exact Htok|]. split.
  - destruct Hshape as [Hl|[Hr Hn]]; [left; exact Hl|right; now split].
  - destruct Hshape as [Hl|[Hr Hn]].
    + rewrite Hl in Hlen. rewrite length_append in Hlen. cbn in Hlen. lia.
    + subst rest. cbn [String.length]. rewrite Hr in Hlen.
      destruct t; [discriminate|]. cbn in Hlen. lia.
Qed.

Lemma strtok_yields_a_token_witness :
  is_token "MOTOR_CMD" = true /\
  (String.length "1:FWD" < String.length "::MOTOR_CMD:1:FWD")%nat.
Proof.
  destruct (strtok_yields_a_token "::MOTOR_CMD:1:FWD" "MOTOR_CMD" "1:FWD"
              eq_refl) as (Htok & _ & Hlen).
  split; [exact Htok|exact Hlen].
Defined.

(** Empty fields vanish: colons before a token are skipped, so a
    line whose tokens are separated by one or more colons yields the same
    tokens as with single colons, and the call after the last token
    returns the null pointer. *)
Lemma strtok_skips_empty_fields (colons1 colons2 t1 t2 : string) :
  all_chars (fun c => Ascii.eqb c COLON) colons1 = true ->
  all_chars (fun c => Ascii.eqb c COLON) colons2 = true ->
  is_token t1 = true -> is_token t2 = true ->
  strtok (colons1 ++ t1 ++ ":" ++ colons2 ++ t2)
  = Some (t1, (colons2 ++ t2)%string) /\
  strtok (colons2 ++ t2) = Some (t2, EmptyString) /\
  strtok colons1 = None.
Proof.
  intros H1 H2 Ht1 Ht2.
  assert (Hskip : forall colons s,
             all_chars (fun c => Ascii.eqb c COLON) colons = true ->
             strtok (colons ++ s) = strtok s).
  { intros colons s H. unfold strtok.
    now rewrite (skip_delim_colons colons s H). }
  split; [|split].
  - rewrite (Hskip colons1 _ H1).
    exact (strtok_first t1 (colons2 ++ t2) Ht1).
  - rewrite (Hskip colons2 _ H2). exact (strtok_last t2 Ht2).
  - rewrite <- (append_nil_r colons1). rewrite (Hskip colons1 _ H1).
    reflexivity.
Qed.

Lemma strtok_skips_empty_fields_witness :
  strtok "::SET_CAL:::60" = Some ("SET_CAL", "::60")%string /\
  strtok "::60" = Some ("60", "")%string /\
  strtok "::" = None.
Proof.
  exact (strtok_skips_empty_fields "::" "::" "SET_CAL" "60"
           eq_refl eq_refl eq_refl eq_refl).
Defined.

(** ** Reading the serial port *)

Lemma read_available_result (waiting input : string) (complete : bool) :
  read_available waiting input complete
  = ((input ++ without_newlines waiting)%string,
     complete || has_newline waiting).
Proof.
  revert input complete.
  induction waiting as [|c waiting IH]; intros input complete;
    cbn [read_available without_newlines has_newline].
  - now rewrite append_nil_r, orb_false_r.
  - destruct (Ascii.eqb c NL).
    + rewrite IH. f_equal. now destruct complete.
    + rewrite IH, append_assoc. reflexivity.
Qed.

Lemma without_newlines_app (s1 s2 : string) :
  without_newlines (s1 ++ s2)
  = (without_newlines s1 ++ without_newlines s2)%string.
Proof.
  induction s1 as [|c s1 IH]; cbn [String.append without_newlines];
    [reflexivity|].
  destruct (Ascii.eqb c NL); cbn [String.append]; now rewrite IH.
Qed.

Lemma has_newline_app (s1 s2 : string) :
  has_newline (s1 ++ s2) = has_newline s1 || has_newline s2.
Proof.
  induction s1 as [|c s1 IH]; cbn [String.append has_newline];
    [reflexivity|].
  now rewrite IH, orb_assoc.
Qed.

(** X3.  The read loop drains every waiting byte in one go: newlines are
    dropped and only set the completion flag, so everything else that was
    waiting, before or after a newline, is appended to the same line.  Two
    commands that arrive together are merged into one line. *)
Theorem read_loop_merges_waiting_bytes (st : state) :
  exists st',
    read_serial st = Some (tt, st') /\
    inputString (vars st')
    = (inputString (vars st) ++ without_newlines (rx (hw st)))%string /\
    stringComplete (vars st')
    = stringComplete (vars st) || has_newline (rx (hw st)) /\
    rx (hw st') = EmptyString /\
    log (hw st') = log (hw st) /\
    (forall line1 line2,
        read_available (line1 ++ String NL line2 ++ String NL "") "" false
        = ((without_newlines line1 ++ without_newlines line2)%string, true)).
Proof.
  destruct st as [g [e c r d a l]].
  eexists. split; [reflexivity|].
  cbn [vars hw rx log inputString stringComplete set_inputString
       set_stringComplete set_rx].
  rewrite read_available_result. cbn [fst snd].
  repeat split.
  intros line1 line2. rewrite read_available_result.
  change (line1 ++ String NL line2 ++ String NL "")%string
    with (line1 ++ (String NL "" ++ (line2 ++ String NL "")))%string.
  rewrite !without_newlines_app, !has_newline_app.
  cbn [without_newlines has_newline String.append].
  rewrite Ascii.eqb_refl. cbn [String.append orb].
  rewrite append_nil_r, !orb_true_r. reflexivity.
Qed.

Example merged_commands :
  read_available ("GET_CAL" ++ String NL "PIN_TEST" ++ String NL "") "" false
  = ("GET_CALPIN_TEST"%string, true).
Proof. reflexivity. Qed.

(** X4.  While no newline has arrived, [handleSerialCommands] only
    buffers: the waiting bytes are appended to [inputString], nothing is
    echoed or dispatched, no call reaches the board and no other global
    changes. *)
Theorem partial_line_is_only_buffered (st : state) :
  stringComplete (vars st) = false ->
  has_newline (rx (hw st)) = false ->
  exists st',
    handleSerialCommands st = Some (tt, st') /\
    inputString (vars st') = (inputString (vars st) ++ rx (hw st))%string /\
    set_inputString "" (vars st') = set_inputString "" (vars st) /\
    hw st' = set_rx "" (hw st).
Proof.
  intros Hc Hn. destruct st as [g [e c r d a l]].
  cbn [vars hw rx] in *.
  assert (Hw : without_newlines r = r).
  { clear - Hn.
    induction r as [|c r IH]; cbn [without_newlines has_newline] in *;
      [reflexivity|].
    apply orb_false_iff in Hn. destruct Hn as [Hc Hr].
    rewrite Hc. now rewrite (IH Hr). }
  unfold handleSerialCommands, read_serial. run_sketch.
  rewrite read_available_result. cbn [fst snd].
  rewrite Hc, Hn, Hw.
  destruct g as [s1 s2 inp cpl spd mm deg flag start dur slot lastc].
  cbn in Hc. subst cpl. cbn. eexists. repeat split.
Qed.

Lemma partial_line_is_only_buffered_witness :
  exists st',
    handleSerialCommands
      (receive "GET_" 3 (power_on erased_eeprom idle_pins idle_pins))
    = Some (tt, st') /\
    inputString (vars st') = "GET_"%string /\
    log (hw st') = [].
Proof.
  destruct (partial_line_is_only_buffered
              (receive "GET_" 3 (power_on erased_eeprom idle_pins idle_pins))
              eq_refl eq_refl) as (st' & Hrun & Hin & _ & Hhw).
  exists st'. split; [exact Hrun|]. split; [exact Hin|].
  rewrite Hhw. reflexivity.
Defined.

(** ** What an operation keeps: the rules *)

Lemma keeps_ret {A : Type} (R : state -> state -> Prop) (a : A) :
  (forall st, R st st) -> keeps R (ret a).
Proof. intros Hrefl st a' st' H. inversion H; subst. apply Hrefl. Qed.

Lemma keeps_bind {A B : Type} (R : state -> state -> Prop)
      (m : M A) (k : A -> M B) :
  (forall s1 s2 s3, R s1 s2 -> R s2 s3 -> R s1 s3) ->
  keeps R m -> (forall a, keeps R (k a)) -> keeps R (bind m k).
Proof.
  intros Htrans Hm Hk st b st' H. unfold bind in H.
  destruct (m st) as [[a s1]|] eqn:E; [|discriminate].
  exact (Htrans _ _ _ (Hm _ _ _ E) (Hk a _ _ _ H)).
Qed.

Lemma keeps_undefined {A : Type} (R : state -> state -> Prop) :
  keeps R (@undefined A).
Proof. intros st a st' H. discriminate. Qed.

(** An operation that only reads. *)
Lemma keeps_reading {A : Type} (R : state -> state -> Prop) (m : M A) :
  (forall st, R st st) ->
  (forall st a st', m st = Some (a, st') -> st' = st) ->
  keeps R m.
Proof.
  intros Hrefl Hm st a st' H. rewrite (Hm _ _ _ H). apply Hrefl.
Qed.

(** An operation given by a total function on states. *)
Lemma keeps_total (R : state -> state -> Prop) (m : M unit)
      (f : state -> state) :
  (forall st, m st = Some (tt, f st)) ->
  (forall st, R st (f st)) ->
  keeps R m.
Proof.
  intros Hm HR st a st' H. rewrite Hm in H. inversion H; subst. apply HR.
Qed.

Lemma next_token_reads (saved : string) (st : state) (a : string * string)
      (st' : state) :
  next_token saved st = Some (a, st') -> st' = st.
Proof.
  unfold next_token. destruct (strtok saved); intros H; [|discriminate].
  now inversion H.
Qed.

(** Decompose a [keeps] goal along the structure of the code; [side]
    proves what the relation itself must satisfy. *)
Ltac keeps_step side :=
  match goal with
  | |- keeps _ (if true then _ else _) => cbv iota
  | |- keeps _ (if false then _ else _) => cbv iota
  | |- keeps _ (bind _ _) =>
      apply keeps_bind; [solve [side] | | intros ?]
  | |- keeps _ (ret _) => apply keeps_ret; solve [side]
  | |- keeps _ undefined => apply keeps_undefined
  | |- keeps _ (let _ := _ in _) => cbv zeta
  | |- keeps _ (if ?b then _ else _) => destruct b
  | |- keeps _ (match ?x with (_, _) => _ end) => destruct x
  | |- keeps _ (match strtok ?s with _ => _ end) =>
      destruct (strtok s) as [[? ?]|]
  | |- keeps _ (next_token _) =>
      apply keeps_reading; [solve [side] | apply next_token_reads]
  | |- keeps _ (load _) =>
      apply keeps_reading;
      [solve [side] | intros ? ? ? H; now inversion H]
  | |- keeps _ millis =>
      apply keeps_reading;
      [solve [side] | intros ? ? ? H; now inversion H]
  | |- keeps _ (digitalRead _) =>
      apply keeps_reading;
      [solve [side] | intros ? ? ? H; now inversion H]
  | |- keeps _ (analogRead _) =>
      apply keeps_reading;
      [solve [side] | intros ? ? ? H; now inversion H]
  | |- keeps _ (EEPROM_get _) =>
      apply keeps_reading;
      [solve [side] | intros ? ? ? H; now inversion H]
  | |- keeps _ (call _) =>
      eapply keeps_total; [intros ?; reflexivity | solve [side]]
  | |- keeps _ (assign _) =>
      eapply keeps_total; [intros ?; reflexivity | solve [side]]
  | |- keeps _ (delay _) =>
      eapply keeps_total; [intros ?; reflexivity | solve [side]]
  | |- keeps _ (EEPROM_put_int _ _) =>
      eapply keeps_total; [intros ?; reflexivity | solve [side]]
  | |- keeps _ read_serial =>
      eapply keeps_total; [intros ?; reflexivity | solve [side]]
  end.

Ltac keeps_auto side :=
  cbv beta zeta delta
    [dispatch handleSerialCommands setup loop runMotor stopMotor homeMotor
     startTimedMove updateTimedMove testMotor moveMotorDistance turnMotor
     updateSensorStates calibrateMotors calibrateSensors trackSun
     pinMode digitalWrite analogWrite];
  repeat keeps_step side.

(** Side conditions for an observation that output calls, delays and the
    assignments met do not touch. *)
Ltac same_side :=
  unfold same, store_motor_speed; intros;
  repeat match goal with
         | |- context [if ?b then _ else _] => destruct b
         end;
  (reflexivity || congruence).



(** ** Which command changes what *)

Ltac exclude_command name :=
  unfold dispatch, command_of in *;
  match goal with
  | |- keeps _ (match strtok ?s with _ => _ end) =>
      destruct (strtok s) as [[command0 saved]|];
      [cbv zeta;
       destruct (String.eqb_spec (stripTrailing command0) name);
       [congruence|]
      |]
  end.

(** X5.  The calibration is changed by SET_CAL alone: dispatching a line
    whose command is anything else, a tick of the timed-move scheduler and
    a sensor poll all leave ms_per_mm, ms_per_deg and the EEPROM contents
    exactly as they were.  In particular CALIBRATE:MOTORS and
    CALIBRATE:SENSORS calibrate nothing. *)
Theorem calibration_changes_only_by_SET_CAL :
  (forall cmd_buffer,
      command_of cmd_buffer <> Some "SET_CAL"%string ->
      keeps (same calibration_store) (dispatch cmd_buffer)) /\
  keeps (same calibration_store) updateTimedMove /\
  keeps (same calibration_store) updateSensorStates.
Proof.
  split; [|split].
  - intros cmd_buffer Hc. exclude_command "SET_CAL"%string;
      keeps_auto same_side.
  - keeps_auto same_side.
  - keeps_auto same_side.
Qed.

Lemma calibration_changes_only_by_SET_CAL_witness :
  exists st',
    dispatch "CALIBRATE:MOTORS" (power_on erased_eeprom idle_pins idle_pins)
    = Some (tt, st') /\
    calibration_store st' = (50, 10, erased_eeprom).
Proof.
  destruct (dispatch "CALIBRATE:MOTORS"
              (power_on erased_eeprom idle_pins idle_pins))
    as [[[] st']|] eqn:E; [|vm_compute in E; discriminate E].
  exists st'. split; [reflexivity|].
  assert (Hc : command_of "CALIBRATE:MOTORS" <> Some "SET_CAL"%string)
    by (vm_compute; discriminate).
  exact (proj1 calibration_changes_only_by_SET_CAL _ Hc _ _ _ E).
Defined.

(** X6.  The speed settings are changed by SET_SPEED alone: no other
    command, no scheduler tick and no sensor poll assigns [motor_speeds]. *)
Theorem motor_speeds_change_only_by_SET_SPEED :
  (forall cmd_buffer,
      command_of cmd_buffer <> Some "SET_SPEED"%string ->
      keeps (same (fun st => motor_speeds (vars st))) (dispatch cmd_buffer)) /\
  keeps (same (fun st => motor_speeds (vars st))) updateTimedMove /\
  keeps (same (fun st => motor_speeds (vars st))) updateSensorStates.
Proof.
  split; [|split].
  - intros cmd_buffer Hc. exclude_command "SET_SPEED"%string;
      keeps_auto same_side.
  - keeps_auto same_side.
  - keeps_auto same_side.
Qed.

Lemma motor_speeds_change_only_by_SET_SPEED_witness :
  exists st',
    dispatch "PIN_TEST" (power_on erased_eeprom idle_pins idle_pins)
    = Some (tt, st') /\
    motor_speeds (vars st') = (255, 255).
Proof.
  destruct (dispatch "PIN_TEST"
              (power_on erased_eeprom idle_pins idle_pins))
    as [[[] st']|] eqn:E; [|vm_compute in E; discriminate E].
  exists st'. split; [reflexivity|].
  assert (Hc : command_of "PIN_TEST" <> Some "SET_SPEED"%string)
    by (vm_compute; discriminate).
  exact (proj1 motor_speeds_change_only_by_SET_SPEED _ Hc _ _ _ E).
Defined.

(** X7.  Among the commands only MOVE_TIME touches the timed-move slot.
    MOTOR_CMD (FWD, REV, STOP, HOME), TEST_MOTOR, MOVE_DIST, TURN,
    TRACK_SUN and PIN_TEST drive or stop motors without recording it, so
    a move that was scheduled stays scheduled with the same motor id, start
    and duration; neither does a sensor poll touch the slot. *)
Theorem slot_changes_only_by_MOVE_TIME :
  (forall cmd_buffer,
      command_of cmd_buffer <> Some "MOVE_TIME"%string ->
      keeps (same timed_move_slot) (dispatch cmd_buffer)) /\
  keeps (same timed_move_slot) updateSensorStates.
Proof.
  split.
  - intros cmd_buffer Hc. exclude_command "MOVE_TIME"%string;
      keeps_auto same_side.
  - keeps_auto same_side.
Qed.

Lemma slot_changes_only_by_MOVE_TIME_witness :
  exists st',
    dispatch "TEST_MOTOR:0"
      (mkState (set_timed_move_motor_id 0
                  (set_move_duration 1000 initial_globals))
               (mkBoard erased_eeprom 10 "" idle_pins idle_pins []))
    = Some (tt, st') /\
    timed_move_slot st' = (0, 0, 1000).
Proof.
  destruct (dispatch "TEST_MOTOR:0"
      (mkState (set_timed_move_motor_id 0
                  (set_move_duration 1000 initial_globals))
               (mkBoard erased_eeprom 10 "" idle_pins idle_pins [])))
    as [[[] st']|] eqn:E; [|vm_compute in E; discriminate E].
  exists st'. split; [reflexivity|].
  assert (Hc : command_of "TEST_MOTOR:0" <> Some "MOVE_TIME"%string)
    by (vm_compute; discriminate).
  exact (proj1 slot_changes_only_by_MOVE_TIME _ Hc _ _ _ E).
Defined.

(** ** Handling a line *)



(** The two ways [handleSerialCommands] can go, as equations. *)
Lemma handleSerialCommands_result (st : state) :
  let input :=
    (inputString (vars st) ++ without_newlines (rx (hw st)))%string in
  let complete := stringComplete (vars st) || has_newline (rx (hw st)) in
  let line := toCharArray (trim input) 200 in
  handleSerialCommands st
  = if complete then
      match dispatch line
              (mkState
                 (set_inputString (trim input)
                    (set_stringComplete true (vars st)))
                 (set_log (log (hw st)
                           ++ [Serial_print "CMD_RCVD:"; Serial_println line])
                          (set_rx "" (hw st)))) with
      | Some (_, st1) =>
          Some (tt, mkState (set_stringComplete false
                               (set_inputString "" (vars st1)))
                            (hw st1))
      | None => None
      end
    else
      Some (tt, mkState (set_inputString input
                           (set_stringComplete false (vars st)))
                        (set_rx "" (hw st))).
Proof.
  destruct st as [g [e c r d a l]].
  destruct g as [s1 s2 inp cpl spd mm deg flag start dur slot lastc].
  cbv zeta. cbn [vars hw rx log inputString stringComplete].
  unfold handleSerialCommands, read_serial. unfold bind at 1.
  cbn [vars hw rx log inputString stringComplete].
  rewrite read_available_result. cbn [fst snd].
  unfold bind at 1. unfold load at 1.
  cbn [vars stringComplete set_stringComplete set_inputString].
  destruct (cpl || has_newline r).
  - run_sketch.
    cbn [inputString set_inputString set_stringComplete stringComplete
         sensor1_last_state sensor2_last_state motor_speeds ms_per_mm
         ms_per_deg sensor_report_enabled move_timer_start move_duration
         timed_move_motor_id last_sensor_check].
    flatten_log.
    match goal with
    | |- match dispatch ?b ?s with _ => _ end
         = match dispatch _ ?s' with _ => _ end =>
        change s' with s;
        destruct (dispatch b s) as [[[] st1]|]; reflexivity
    end.
  - reflexivity.
Qed.



Lemma skip_space_all_space (s : string) :
  all_chars isspace s = true -> skip_space s = EmptyString.
Proof.
  induction s as [|c s IH]; cbn [all_chars skip_space]; intros H;
    [reflexivity|].
  apply andb_true_iff in H. destruct H as [Hc Hr]. rewrite Hc. exact (IH Hr).
Qed.

Lemma all_chars_without_newlines (p : ascii -> bool) (s : string) :
  all_chars p s = true -> all_chars p (without_newlines s) = true.
Proof.
  induction s as [|c s IH]; cbn [all_chars without_newlines]; intros H;
    [reflexivity|].
  apply andb_true_iff in H. destruct H as [Hc Hr].
  destruct (Ascii.eqb c NL); [exact (IH Hr)|].
  cbn [all_chars]. now rewrite Hc, (IH Hr).
Qed.

(** X9.  A blank line (white space only, with at least one newline)
    received on an empty buffer is echoed as an empty CMD_RCVD: line and
    otherwise ignored: no command runs, no global changes, and nothing
    else reaches the board. *)
Theorem blank_line_is_echoed_and_ignored (st : state) :
  inputString (vars st) = EmptyString ->
  stringComplete (vars st) = false ->
  all_chars isspace (rx (hw st)) = true ->
  has_newline (rx (hw st)) = true ->
  exists st',
    handleSerialCommands st = Some (tt, st') /\
    vars st' = vars st /\
    hw st'
    = set_log (log (hw st) ++ [Serial_print "CMD_RCVD:"; Serial_println ""])
              (set_rx "" (hw st)).
Proof.
  intros Hin Hc Hsp Hnl.
  rewrite handleSerialCommands_result. cbv zeta.
  rewrite Hin, Hc, Hnl. cbn [String.append orb].
  assert (Htrim : trim (without_newlines (rx (hw st))) = EmptyString).
  { unfold trim.
    now rewrite (skip_space_all_space _
                   (all_chars_without_newlines _ _ Hsp)). }
  rewrite Htrim.
  change (toCharArray "" 200) with EmptyString.
  change (dispatch "") with (@ret unit tt). unfold ret.
  eexists. split; [reflexivity|]. split; [|reflexivity].
  destruct st as [g b].
  destruct g as [s1 s2 inp cpl spd mm deg flag start dur slot lastc].
  cbn in Hin, Hc. subst inp cpl. reflexivity.
Qed.

Lemma blank_line_is_echoed_and_ignored_witness :
  exists st',
    handleSerialCommands
      (receive (" " ++ String NL "") 3
               (power_on erased_eeprom idle_pins idle_pins))
    = Some (tt, st') /\
    vars st' = initial_globals /\
    log (hw st') = [Serial_print "CMD_RCVD:"; Serial_println ""].
Proof.
  destruct (blank_line_is_echoed_and_ignored
              (receive (" " ++ String NL "") 3
                 (power_on erased_eeprom idle_pins idle_pins))
              eq_refl eq_refl eq_refl eq_refl)
    as (st' & Hrun & Hvars & Hhw).
  exists st'. split; [exact Hrun|]. split; [exact Hvars|].
  rewrite Hhw. reflexivity.
Defined.

(** ** The line buffer in reachable states *)




(** ** The sensor-reporting flag is never read *)

Lemma blind_ret {A : Type} (a : A) : blind (ret a).
Proof. intros s1 s2 H. cbn. split; [reflexivity|exact H]. Qed.

Lemma blind_undefined {A : Type} : blind (@undefined A).
Proof. intros s1 s2 H. exact I. Qed.

Lemma blind_bind {A B : Type} (m : M A) (k : A -> M B) :
  blind m -> (forall a, blind (k a)) -> blind (bind m k).
Proof.
  intros Hm Hk s1 s2 H. unfold bind. specialize (Hm s1 s2 H).
  destruct (m s1) as [[a1 t1]|], (m s2) as [[a2 t2]|]; try contradiction.
  - destruct Hm as [Ha Ht]. subst a2. exact (Hk a1 t1 t2 Ht).
  - exact I.
Qed.

Lemma blind_ext {A : Type} (m m' : M A) :
  (forall st, m st = m' st) -> blind m' -> blind m.
Proof. intros He Hm s1 s2 H. rewrite !He. exact (Hm s1 s2 H). Qed.

Lemma blind_total (m : M unit) (f : state -> state) :
  (forall st, m st = Some (tt, f st)) ->
  (forall s1 s2, agree_but_flag s1 s2 -> agree_but_flag (f s1) (f s2)) ->
  blind m.
Proof.
  intros Hm Hf s1 s2 H. rewrite !Hm. split; [reflexivity|exact (Hf _ _ H)].
Qed.

Lemma blind_reading {A : Type} (m : M A) (v : state -> A) :
  (forall st, m st = Some (v st, st)) ->
  (forall s1 s2, agree_but_flag s1 s2 -> v s1 = v s2) ->
  blind m.
Proof.
  intros Hm Hv s1 s2 H. rewrite !Hm. split; [exact (Hv _ _ H)|exact H].
Qed.

Ltac blind_side :=
  unfold agree_but_flag; intros [g1 b1] [g2 b2] [Hhw Hv];
  cbn [hw vars] in Hhw, Hv; subst b2;
  destruct g1, g2;
  cbv beta iota delta
    [set_sensor_report_enabled set_sensor1_last_state set_sensor2_last_state
     set_inputString set_stringComplete set_motor_speeds set_ms_per_mm
     set_ms_per_deg set_move_timer_start set_move_duration
     set_timed_move_motor_id set_last_sensor_check store_motor_speed
     sensor1_last_state sensor2_last_state inputString stringComplete
     motor_speeds ms_per_mm ms_per_deg sensor_report_enabled
     move_timer_start move_duration timed_move_motor_id last_sensor_check
     vars hw] in *;
  inversion Hv; subst;
  repeat match goal with
         | |- context [if ?b then _ else _] => destruct b
         end;
  try split; reflexivity.

(** The block of SENSOR_REPORT that assigns the flag and prints it back
    reads the value it has just assigned. *)
Lemma sensor_report_block (v : bool) (st : state) :
  (assign (set_sensor_report_enabled v) ;;
   call (Serial_print "SENSOR_REPORT:") ;;
   enabled <- load sensor_report_enabled ;;
   call (Serial_println (if enabled then "ON" else "OFF")) ;;
   call (Serial_print "ACK:") ;;
   call (Serial_println "SENSOR_REPORT")) st
  = (assign (set_sensor_report_enabled v) ;;
     call (Serial_print "SENSOR_REPORT:") ;;
     call (Serial_println (if v then "ON" else "OFF")) ;;
     call (Serial_print "ACK:") ;;
     call (Serial_println "SENSOR_REPORT")) st.
Proof. destruct st as [g b]. destruct g. reflexivity. Qed.

Ltac blind_step :=
  match goal with
  | |- blind (if true then _ else _) => cbv iota
  | |- blind (if false then _ else _) => cbv iota
  | |- blind (bind (assign (set_sensor_report_enabled ?v))
                    (fun _ => bind _ (fun _ => bind (load _) _))) =>
      apply (blind_ext _ _ (sensor_report_block v))
  | |- blind (bind _ _) => apply blind_bind; [ | intros ?]
  | |- blind (ret _) => apply blind_ret
  | |- blind undefined => apply blind_undefined
  | |- blind (let _ := _ in _) => cbv zeta
  | |- blind (if ?b then _ else _) => destruct b
  | |- blind (match ?x with (_, _) => _ end) => destruct x
  | |- blind (match strtok ?s with _ => _ end) =>
      destruct (strtok s) as [[? ?]|]
  | |- blind (next_token ?s) => unfold next_token
  | |- blind (load _) =>
      eapply blind_reading; [intros ?; reflexivity | solve [blind_side]]
  | |- blind millis =>
      eapply blind_reading; [intros ?; reflexivity | solve [blind_side]]
  | |- blind (digitalRead _) =>
      eapply blind_reading; [intros ?; reflexivity | solve [blind_side]]
  | |- blind (analogRead _) =>
      eapply blind_reading; [intros ?; reflexivity | solve [blind_side]]
  | |- blind (EEPROM_get _) =>
      eapply blind_reading; [intros ?; reflexivity | solve [blind_side]]
  | |- blind (call _) =>
      eapply blind_total; [intros ?; reflexivity | solve [blind_side]]
  | |- blind (assign _) =>
      eapply blind_total; [intros ?; reflexivity | solve [blind_side]]
  | |- blind (delay _) =>
      eapply blind_total; [intros ?; reflexivity | solve [blind_side]]
  | |- blind (EEPROM_put_int _ _) =>
      eapply blind_total; [intros ?; reflexivity | solve [blind_side]]
  | |- blind read_serial =>
      eapply blind_total; [intros ?; reflexivity | solve [blind_side]]
  end.

Ltac blind_auto :=
  cbv beta zeta delta
    [dispatch handleSerialCommands setup loop runMotor stopMotor homeMotor
     startTimedMove updateTimedMove testMotor moveMotorDistance turnMotor
     updateSensorStates calibrateMotors calibrateSensors trackSun
     pinMode digitalWrite analogWrite];
  repeat blind_step.

Lemma loop_blind : blind loop.
Proof. blind_auto. Qed.

(** X11.  [sensor_report_enabled] influences nothing: run one pass of
    [loop] from two states that differ only in that flag, and either both
    passes are undefined or both complete with the same board (same log of
    output calls, same EEPROM, same clock) and the same globals except
    possibly the flag itself. *)
Theorem report_flag_influences_nothing (st : state) (flag : bool) :
  match loop st,
        loop (mkState (set_sensor_report_enabled flag (vars st)) (hw st)) with
  | Some (_, st1), Some (_, st2) =>
      hw st2 = hw st1 /\
      set_sensor_report_enabled true (vars st2)
      = set_sensor_report_enabled true (vars st1)
  | None, None => True
  | _, _ => False
  end.
Proof.
  assert (H : agree_but_flag st
                (mkState (set_sensor_report_enabled flag (vars st)) (hw st))).
  { destruct st as [g b]. destruct g. split; reflexivity. }
  pose proof (loop_blind _ _ H) as Hb.
  destruct (loop st) as [[a1 s1]|],
           (loop (mkState (set_sensor_report_enabled flag (vars st)) (hw st)))
    as [[a2 s2]|]; try exact Hb.
  destruct Hb as [_ [Hhw Hv]]. split; symmetry; assumption.
Qed.

(** ** Commands and their error replies *)

(** X12.  A line whose command name is none of the thirteen known names
    is answered with Invalid Command:<name> and has no other effect. *)
Theorem unknown_command_is_reported (cmd_buffer command : string)
        (st : state) :
  command_of cmd_buffer = Some command ->
  is_known_command command = false ->
  dispatch cmd_buffer st
  = Some (tt,
          mkState (vars st)
            (set_log (log (hw st)
                      ++ [Serial_print "Invalid Command:";
                          Serial_println command])
                     (hw st))).
Proof.
  intros Hc Hk. unfold command_of, dispatch in *.
  destruct (strtok cmd_buffer) as [[command0 saved]|]; [|discriminate Hc].
  inversion Hc; subst command. clear Hc. cbv zeta.
  unfold is_known_command, known_commands in Hk. cbn [existsb] in Hk.
  repeat match goal with
         | H : _ || _ = false |- _ =>
             apply orb_false_elim in H; destruct H
         end.
  repeat match goal with
         | H : (_ =? _)%string = false |- _ => rewrite H; clear H
         end.
  destruct st as [g [e c r d a l]]. run_sketch. flatten_log. reflexivity.
Qed.

Lemma unknown_command_is_reported_witness :
  dispatch "STATUS?:1" (power_on erased_eeprom idle_pins idle_pins)
  = Some (tt,
          mkState initial_globals
            (mkBoard erased_eeprom 0 "" idle_pins idle_pins
               [Serial_print "Invalid Command:"; Serial_println "STATUS?"])).
Proof.
  exact (unknown_command_is_reported "STATUS?:1" "STATUS?"
           (power_on erased_eeprom idle_pins idle_pins) eq_refl eq_refl).
Defined.

(** X13.  SENSOR_REPORT:<mode>, the mode read with trailing white space
    stripped: ON or OFF sets the flag to exactly that (whatever it was)
    and is answered by SENSOR_REPORT:<ON|OFF> and ACK:SENSOR_REPORT; any
    other mode leaves every global as it was and is answered by
    NACK:SENSOR_REPORT:<mode>; without a mode the answer is
    NACK:SENSOR_REPORT:<none>.  No pin is written in any case. *)
Theorem sensor_report_sets_or_rejects (mode : string) (st : state) :
  is_token mode = true ->
  let m := stripTrailing mode in
  dispatch ("SENSOR_REPORT:" ++ mode) st
  = Some (tt,
          if (m =? "ON")%string || (m =? "OFF")%string then
            mkState (set_sensor_report_enabled (m =? "ON")%string (vars st))
              (set_log (log (hw st)
                        ++ [Serial_print "SENSOR_REPORT:";
                            Serial_println
                              (if (m =? "ON")%string then "ON" else "OFF");
                            Serial_print "ACK:";
                            Serial_println "SENSOR_REPORT"])
                       (hw st))
          else
            mkState (vars st)
              (set_log (log (hw st)
                        ++ [Serial_print "NACK:SENSOR_REPORT:";
                            Serial_println m])
                       (hw st))) /\
  dispatch "SENSOR_REPORT" st
  = Some (tt,
          mkState (vars st)
            (set_log (log (hw st)
                      ++ [Serial_print "NACK:SENSOR_REPORT:";
                          Serial_println "<none>"])
                     (hw st))).
Proof.
  intros Hmode m. destruct st as [g [e c r d a l]]. split.
  - unfold dispatch.
    change (strtok ("SENSOR_REPORT:" ++ mode))
      with (Some ("SENSOR_REPORT", mode)%string).
    cbv beta iota zeta. eval_tokens.
    rewrite (strtok_last mode Hmode). cbv beta iota zeta. fold m.
    destruct ((m =? "ON")%string || (m =? "OFF")%string);
      run_sketch; cbn [sensor_report_enabled set_sensor_report_enabled];
      flatten_log; reflexivity.
  - unfold dispatch. eval_tokens. run_sketch. flatten_log. reflexivity.
Qed.

Lemma sensor_report_sets_or_rejects_witness :
  exists st1 st2,
    dispatch "SENSOR_REPORT:OFF " (power_on erased_eeprom idle_pins idle_pins)
    = Some (tt, st1) /\
    sensor_report_enabled (vars st1) = false /\
    dispatch "SENSOR_REPORT:MAYBE" st1 = Some (tt, st2) /\
    sensor_report_enabled (vars st2) = false /\
    log (hw st2)
    = log (hw st1)
      ++ [Serial_print "NACK:SENSOR_REPORT:"; Serial_println "MAYBE"].
Proof.
  eexists. eexists.
  split; [exact (proj1 (sensor_report_sets_or_rejects "OFF "
                          (power_on erased_eeprom idle_pins idle_pins)
                          eq_refl))|].
  split; [reflexivity|].
  split; [exact (proj1 (sensor_report_sets_or_rejects "MAYBE" _ eq_refl))|].
  split; reflexivity.
Defined.

(** X14.  SET_CAL with a key other than MS_PER_MM and MS_PER_DEG is
    answered by ERROR:Unknown calibration key; SET_CAL with a key but no
    value, or with no argument at all, by ERROR:SET_CAL invalid format.
    In each case the calibration variables and the EEPROM stay as they
    were and nothing else is output. *)
Theorem set_cal_rejects_bad_requests (key val : string) (st : state) :
  is_token key = true -> is_token val = true ->
  key <> "MS_PER_MM"%string -> key <> "MS_PER_DEG"%string ->
  dispatch ("SET_CAL:" ++ key ++ ":" ++ val) st
  = Some (tt,
          mkState (vars st)
            (set_log (log (hw st)
                      ++ [Serial_println "ERROR:Unknown calibration key"])
                     (hw st))) /\
  dispatch ("SET_CAL:" ++ val) st
  = Some (tt,
          mkState (vars st)
            (set_log (log (hw st)
                      ++ [Serial_println "ERROR:SET_CAL invalid format"])
                     (hw st))) /\
  dispatch "SET_CAL" st
  = Some (tt,
          mkState (vars st)
            (set_log (log (hw st)
                      ++ [Serial_println "ERROR:SET_CAL invalid format"])
                     (hw st))).
Proof.
  intros Hkey Hval Hmm Hdeg. destruct st as [g [e c r d a l]].
  apply String.eqb_neq in Hmm, Hdeg.
  split; [|split].
  - unfold dispatch.
    change (strtok ("SET_CAL:" ++ key ++ ":" ++ val))
      with (Some ("SET_CAL", key ++ ":" ++ val)%string).
    cbv beta iota zeta. eval_tokens.
    change (key ++ ":" ++ val)%string with (key ++ String COLON val)%string.
    rewrite (strtok_first key val Hkey). cbv beta iota zeta.
    rewrite (strtok_last val Hval). cbv beta iota zeta.
    rewrite Hmm, Hdeg. reflexivity.
  - unfold dispatch.
    change (strtok ("SET_CAL:" ++ val))
      with (Some ("SET_CAL", val)%string).
    cbv beta iota zeta. eval_tokens.
    rewrite (strtok_last val Hval). cbv beta iota zeta.
    reflexivity.
  - unfold dispatch. eval_tokens. reflexivity.
Qed.

Lemma set_cal_rejects_bad_requests_witness :
  dispatch "SET_CAL:MS_PER_INCH:5"
           (power_on erased_eeprom idle_pins idle_pins)
  = Some (tt,
          mkState initial_globals
            (mkBoard erased_eeprom 0 "" idle_pins idle_pins
               [Serial_println "ERROR:Unknown calibration key"])).
Proof.
  assert (H1 : "MS_PER_INCH"%string <> "MS_PER_MM"%string) by discriminate.
  assert (H2 : "MS_PER_INCH"%string <> "MS_PER_DEG"%string) by discriminate.
  exact (proj1 (set_cal_rejects_bad_requests "MS_PER_INCH" "5"
                  (power_on erased_eeprom idle_pins idle_pins)
                  eq_refl eq_refl H1 H2)).
Defined.

(** ** The calibration store across a power cycle *)

Lemma to_int_range (x : Z) : -32768 <= to_int x < 32768.
Proof.
  unfold to_int, wrap_signed, INT_BITS.
  change (2 ^ 16) with 65536. change (2 ^ (16 - 1)) with 32768.
  pose proof (Z.mod_pos_bound x 65536 ltac:(lia)) as H.
  destruct (Z.ltb_spec (x mod 65536) 32768); lia.
Qed.

(** Writing an [int] leaves an [int] stored two or more bytes away as it
    was. *)
Lemma eeprom_read_other (e : Z -> Z) (addr addr' v : Z) :
  addr' + 1 < addr \/ addr + 1 < addr' ->
  eeprom_read_int (eeprom_write_int e addr v) addr' = eeprom_read_int e addr'.
Proof.
  intros H. unfold eeprom_read_int, eeprom_write_int.
  replace (addr' =? addr) with false by (symmetry; apply Z.eqb_neq; lia).
  replace (addr' =? addr + 1) with false by (symmetry; apply Z.eqb_neq; lia).
  replace (addr' + 1 =? addr) with false by (symmetry; apply Z.eqb_neq; lia).
  replace (addr' + 1 =? addr + 1) with false
    by (symmetry; apply Z.eqb_neq; lia).
  reflexivity.
Qed.

Lemma dispatch_SET_CAL_MS_PER_DEG (val : string) (st : state) :
  is_token val = true ->
  exists st',
    dispatch ("SET_CAL:MS_PER_DEG:" ++ val) st = Some (tt, st') /\
    ms_per_deg (vars st') = atoi val /\
    eeprom (hw st')
    = eeprom_write_int (eeprom (hw st)) EEPROM_ADDR_MS_PER_DEG (atoi val).
Proof.
  intros Hval. destruct st as [g [e c r d a l]].
  unfold dispatch.
  change (strtok ("SET_CAL:MS_PER_DEG:" ++ val))
    with (Some ("SET_CAL", "MS_PER_DEG:" ++ val)%string).
  cbv beta iota zeta. eval_tokens.
  change (strtok ("MS_PER_DEG:" ++ val))
    with (Some ("MS_PER_DEG", val)%string).
  cbv beta iota zeta. rewrite (strtok_last val Hval). eval_tokens.
  run_sketch. eexists. split; [reflexivity|]. split; reflexivity.
Qed.

(** X15.  SET_CAL persists, and each key has its own place.  After
    SET_CAL:MS_PER_MM:<val> a power cycle loads ms_per_mm as the [int] the
    value read as, or as 50 when that is not positive, and loads
    ms_per_deg exactly as it would have loaded without the command; after
    SET_CAL:MS_PER_DEG:<val> it is the other way round (default 10). *)
Theorem set_cal_survives_power_cycle (val : string) (st : state) :
  is_token val = true ->
  let v := atoi val in
  let old_mm := eeprom_read_int (eeprom (hw st)) EEPROM_ADDR_MS_PER_MM in
  let old_deg := eeprom_read_int (eeprom (hw st)) EEPROM_ADDR_MS_PER_DEG in
  (exists st1,
      dispatch ("SET_CAL:MS_PER_MM:" ++ val) st = Some (tt, st1) /\
      forall din' ain',
      exists st2,
        setup (power_on (eeprom (hw st1)) din' ain') = Some (tt, st2) /\
        ms_per_mm (vars st2) = (if v <=? 0 then 50 else v) /\
        ms_per_deg (vars st2) = (if old_deg <=? 0 then 10 else old_deg)) /\
  (exists st1,
      dispatch ("SET_CAL:MS_PER_DEG:" ++ val) st = Some (tt, st1) /\
      forall din' ain',
      exists st2,
        setup (power_on (eeprom (hw st1)) din' ain') = Some (tt, st2) /\
        ms_per_mm (vars st2) = (if old_mm <=? 0 then 50 else old_mm) /\
        ms_per_deg (vars st2) = (if v <=? 0 then 10 else v)).
Proof.
  intros Hval v old_mm old_deg.
  pose proof (to_int_range (parse_decimal val)) as Hrange.
  change (to_int (parse_decimal val)) with v in Hrange.
  split.
  - destruct (set_cal_stores_any_int val st Hval) as (st1 & Hrun & _ & He).
    unfold exec in Hrun.
    destruct (dispatch ("SET_CAL:MS_PER_MM:" ++ val) st) as [[[] s]|];
      [|discriminate Hrun].
    inversion Hrun; subst s. exists st1. split; [reflexivity|].
    intros din' ain'.
    destruct (setup_calibration (power_on (eeprom (hw st1)) din' ain'))
      as (st2 & Hs & Hmm & Hdeg).
    exists st2. split; [exact Hs|].
    rewrite Hmm, Hdeg. cbn [power_on hw eeprom]. cbv zeta. rewrite He.
    fold v. rewrite (eeprom_read_write _ _ v Hrange).
    rewrite eeprom_read_other
      by (right; unfold EEPROM_ADDR_MS_PER_MM, EEPROM_ADDR_MS_PER_DEG; lia).
    split; reflexivity.
  - destruct (dispatch_SET_CAL_MS_PER_DEG val st Hval)
      as (st1 & Hrun & _ & He).
    exists st1. split; [exact Hrun|].
    intros din' ain'.
    destruct (setup_calibration (power_on (eeprom (hw st1)) din' ain'))
      as (st2 & Hs & Hmm & Hdeg).
    exists st2. split; [exact Hs|].
    rewrite Hmm, Hdeg. cbn [power_on hw eeprom]. cbv zeta. rewrite He.
    fold v. rewrite (eeprom_read_write _ _ v Hrange).
    rewrite eeprom_read_other
      by (left; unfold EEPROM_ADDR_MS_PER_MM, EEPROM_ADDR_MS_PER_DEG; lia).
    split; reflexivity.
Qed.

Lemma set_cal_survives_power_cycle_witness :
  exists st1 st2,
    dispatch "SET_CAL:MS_PER_DEG:12"
             (power_on erased_eeprom idle_pins idle_pins) = Some (tt, st1) /\
    setup (power_on (eeprom (hw st1)) idle_pins idle_pins) = Some (tt, st2) /\
    ms_per_mm (vars st2) = 50 /\
    ms_per_deg (vars st2) = 12.
Proof.
  destruct (proj2 (set_cal_survives_power_cycle "12"
                     (power_on erased_eeprom idle_pins idle_pins) eq_refl))
    as (st1 & Hrun & Hboot).
  destruct (Hboot idle_pins idle_pins) as (st2 & Hs & Hmm & Hdeg).
  exists st1, st2. split; [exact Hrun|]. split; [exact Hs|].
  split; [exact Hmm|exact Hdeg].
Defined.

(** ** Moves that block the loop *)

(** X16.  TEST_MOTOR, MOVE_DIST and TURN hold the whole loop for 250 ms
    (whatever distance or angle is given) and then leave the motor
    stopped: direction pins low and enable at PWM 0, for motor 0 as for
    motor 1, whatever the speed setting and whatever the pins carried
    before.  MOVE_DIST and TURN leave the feedback motor pins 12 and 13 low
    as well.  No global changes: a timed move that was scheduled on the
    same motor stays scheduled. *)
Theorem blocking_moves_end_stopped (id : Z) (amount : cfloat) (st : state) :
  (exists st', testMotor id st = Some (tt, st') /\ halted_after id 250 st st')
  /\
  (exists st',
      moveMotorDistance id amount st = Some (tt, st') /\
      halted_after id 250 st st' /\
      pin_drive (log (hw st')) FEEDBACK_MOTOR_PIN_FWD = Some (Digital LOW) /\
      pin_drive (log (hw st')) FEEDBACK_MOTOR_PIN_REV = Some (Digital LOW))
  /\
  (exists st',
      turnMotor id amount st = Some (tt, st') /\
      halted_after id 250 st st' /\
      pin_drive (log (hw st')) FEEDBACK_MOTOR_PIN_FWD = Some (Digital LOW) /\
      pin_drive (log (hw st')) FEEDBACK_MOTOR_PIN_REV = Some (Digital LOW)).
Proof.
  destruct st as [g [e c r d a l]].
  unfold halted_after, motor0_outputs, motor1_outputs, motor_stopped.
  split; [|split].
  - unfold testMotor, runMotor, stopMotor.
    destruct (Z.eqb_spec id 0) as [H0|H0];
      [|destruct (Z.eqb_spec id 1) as [H1|H1]];
      run_sketch; flatten_log; eexists; (split; [reflexivity|]);
      cbn [vars hw log clock eeprom]; rewrite ?pin_drive_app;
      repeat split; intros; try reflexivity; try lia.
  - unfold moveMotorDistance, runMotor, stopMotor.
    destruct (Z.eqb_spec id 0) as [H0|H0];
      [|destruct (Z.eqb_spec id 1) as [H1|H1]];
      run_sketch; flatten_log; eexists; (split; [reflexivity|]);
      cbn [vars hw log clock eeprom]; rewrite ?pin_drive_app;
      repeat split; intros; try reflexivity; try lia.
  - unfold turnMotor, runMotor, stopMotor.
    destruct (Z.eqb_spec id 0) as [H0|H0];
      [|destruct (Z.eqb_spec id 1) as [H1|H1]];
      run_sketch; flatten_log; eexists; (split; [reflexivity|]);
      cbn [vars hw log clock eeprom]; rewrite ?pin_drive_app;
      repeat split; intros; try reflexivity; try lia.
Qed.

(** ** Sun tracking *)

(** X17.  [trackSun] has a dead band.  With both light readings in the
    range of the converter (0..1023), it always prints the two readings;
    when they differ by at most 50 it does nothing else; otherwise it runs
    motor 0 (forward exactly when the left reading is the larger) at its
    speed setting, holds for 50 ms and stops it.  Motor 1 and the globals
    are never touched. *)
Theorem trackSun_has_a_dead_band (st : state) :
  let left_val := ain (hw st) LDR_LEFT_PIN in
  let right_val := ain (hw st) LDR_RIGHT_PIN in
  let info := [Serial_print "INFO:Sun tracking check. L:";
               Serial_print_int left_val; Serial_print " R:";
               Serial_println_int right_val] in
  0 <= left_val <= 1023 -> 0 <= right_val <= 1023 ->
  trackSun st
  = Some (tt,
          if Z.abs (left_val - right_val) <=? 50 then
            mkState (vars st) (set_log (log (hw st) ++ info) (hw st))
          else
            mkState (vars st)
              (set_clock (to_ulong (clock (hw st) + 50))
                 (set_log
                    (log (hw st) ++ info
                     ++ run_calls 0 (right_val <? left_val)
                                  (motor_speeds (vars st))
                     ++ [Delay 50] ++ stop_calls 0)
                    (hw st)))).
Proof.
  destruct st as [g [e c r d a l]]. cbv zeta. cbn [hw vars ain log clock].
  intros Hl Hr.
  unfold trackSun. run_sketch.
  rewrite (to_int_small (a LDR_LEFT_PIN - a LDR_RIGHT_PIN)) by lia.
  rewrite (to_int_small (Z.abs (a LDR_LEFT_PIN - a LDR_RIGHT_PIN))) by lia.
  rewrite Z.gtb_ltb.
  destruct (Z.leb_spec (Z.abs (a LDR_LEFT_PIN - a LDR_RIGHT_PIN)) 50)
    as [Hin|Hout].
  - replace (50 <? Z.abs (a LDR_LEFT_PIN - a LDR_RIGHT_PIN)) with false
      by (symmetry; apply Z.ltb_ge; lia).
    flatten_log. reflexivity.
  - replace (50 <? Z.abs (a LDR_LEFT_PIN - a LDR_RIGHT_PIN)) with true
      by (symmetry; apply Z.ltb_lt; lia).
    replace (a LDR_LEFT_PIN - a LDR_RIGHT_PIN >? 0)
      with (a LDR_RIGHT_PIN <? a LDR_LEFT_PIN)
      by (rewrite Z.gtb_ltb;
          destruct (Z.ltb_spec (a LDR_RIGHT_PIN) (a LDR_LEFT_PIN));
          destruct (Z.ltb_spec 0 (a LDR_LEFT_PIN - a LDR_RIGHT_PIN));
          (reflexivity || lia)).
    unfold runMotor, stopMotor, run_calls, stop_calls.
    change (0 =? 0) with true. cbv iota.
    run_sketch. flatten_log. reflexivity.
Qed.

Lemma trackSun_has_a_dead_band_witness :
  exists st',
    trackSun (mkState initial_globals
                (mkBoard erased_eeprom 0 "" idle_pins
                   (fun pin => if pin =? LDR_LEFT_PIN then 400 else 620) []))
    = Some (tt, st') /\
    log (hw st')
    = [Serial_print "INFO:Sun tracking check. L:"; Serial_print_int 400;
       Serial_print " R:"; Serial_println_int 620;
       DigitalWrite IN1 LOW; DigitalWrite IN2 HIGH; AnalogWrite ENA 255;
       Delay 50;
       DigitalWrite IN1 LOW; DigitalWrite IN2 LOW; AnalogWrite ENA 0].
Proof.
  eexists. split.
  - apply (trackSun_has_a_dead_band
             (mkState initial_globals
                (mkBoard erased_eeprom 0 "" idle_pins
                   (fun pin => if pin =? LDR_LEFT_PIN then 400 else 620) [])));
      vm_compute; split; discriminate.
  - reflexivity.
Defined.

(** ** Speed settings and running motors *)

(** X18.  A speed setting takes effect at the next run command, not
    before: SET_SPEED writes no pin, so a motor that is running keeps the
    PWM duty it was started with; a following MOTOR_CMD:<id>:FWD then
    drives the enable pin with the new setting, p * 255 / 100 truncated,
    with the first direction pin high and the second low. *)
Theorem new_speed_applies_at_next_run (percent_tok : string) (st : state) :
  is_token percent_tok = true ->
  0 <= atoi percent_tok <= 100 ->
  let v := atoi percent_tok * 255 / 100 in
  exists st1 st2 st3,
    dispatch ("SET_SPEED:*:" ++ percent_tok) st = Some (tt, st1) /\
    log (hw st1) = log (hw st) /\
    dispatch "MOTOR_CMD:0:FWD" st1 = Some (tt, st2) /\
    motor0_outputs st2
    = (Some (Digital HIGH), Some (Digital LOW), Some (Pwm v)) /\
    dispatch "MOTOR_CMD:1:REV" st2 = Some (tt, st3) /\
    motor1_outputs st3
    = (Some (Digital LOW), Some (Digital HIGH), Some (Pwm v)) /\
    motor0_outputs st3 = motor0_outputs st2.
Proof.
  intros Hp Hrange v.
  destruct (map_percent (atoi percent_tok) Hrange) as [Hmap _].
  pose proof (dispatch_SET_SPEED "*" percent_tok st eq_refl Hp) as H1.
  cbv zeta in H1. rewrite Hmap in H1. fold v in H1.
  change ("*" =? "*")%string with true in H1. cbv iota in H1.
  change ("SET_SPEED:" ++ "*" ++ ":" ++ percent_tok)%string
    with ("SET_SPEED:*:" ++ percent_tok)%string in H1.
  destruct st as [g [e c r d a l]].
  eexists. eexists. eexists.
  split; [exact H1|]. split; [reflexivity|].
  split.
  { unfold dispatch. eval_tokens. unfold bind, next_token. eval_tokens.
    unfold ret. cbv beta iota. eval_tokens. unfold runMotor.
    change (0 =? 0) with true. cbv iota. run_sketch.
    cbn [motor_speeds set_motor_speeds fst snd]. flatten_log. reflexivity. }
  split.
  { unfold motor0_outputs. cbn [hw log]. rewrite !pin_drive_app.
    reflexivity. }
  split.
  { unfold dispatch. eval_tokens. unfold bind, next_token. eval_tokens.
    unfold ret. cbv beta iota. eval_tokens. unfold runMotor.
    change (1 =? 0) with false. change (1 =? 1) with true. cbv iota.
    run_sketch.
    cbn [motor_speeds set_motor_speeds fst snd]. flatten_log. reflexivity. }
  unfold motor0_outputs, motor1_outputs. cbn [hw log].
  split.
  - rewrite !pin_drive_app. reflexivity.
  - rewrite !(pin_drive_app l). reflexivity.
Qed.

Lemma new_speed_applies_at_next_run_witness :
  exists st1 st2,
    dispatch "SET_SPEED:*:40" (power_on erased_eeprom idle_pins idle_pins)
    = Some (tt, st1) /\
    dispatch "MOTOR_CMD:0:FWD" st1 = Some (tt, st2) /\
    motor0_outputs st2
    = (Some (Digital HIGH), Some (Digital LOW), Some (Pwm 102)).
Proof.
  assert (Hrange : 0 <= atoi "40" <= 100)
    by (vm_compute; split; discriminate).
  destruct (new_speed_applies_at_next_run "40"
              (power_on erased_eeprom idle_pins idle_pins) eq_refl Hrange)
    as (st1 & st2 & _ & H1 & _ & H2 & H3 & _).
  exists st1, st2. split; [exact H1|]. split; [exact H2|exact H3].
Defined.

(** ** The scheduler and the millisecond clock *)

(** X19.  The deadline test survives the rollover of [millis()].  If a
    move is active and [elapsed] ms (less than 2^32) have really passed
    since its start, so that the clock reads start + elapsed modulo 2^32,
    then a tick completes the move exactly when elapsed >= duration, also
    when the clock has wrapped past zero in between. *)
Theorem timed_move_survives_clock_rollover (st : state) (elapsed : Z) :
  timed_move_active (vars st) = true ->
  0 <= move_timer_start (vars st) < 2 ^ LONG_BITS ->
  0 <= elapsed < 2 ^ LONG_BITS ->
  clock (hw st) = to_ulong (move_timer_start (vars st) + elapsed) ->
  updateTimedMove st
  = Some (tt,
          if elapsed >=? move_duration (vars st)
          then mkState (set_timed_move_motor_id (-1) (vars st))
                 (set_log (log (hw st)
                           ++ stop_calls (timed_move_motor_id (vars st)))
                          (hw st))
          else st).
Proof.
  intros Hactive Hstart Helapsed Hclock.
  rewrite updateTimedMove_result, Hactive, Hclock. cbn [andb].
  replace (to_ulong (to_ulong (move_timer_start (vars st) + elapsed)
                     - move_timer_start (vars st)))
    with elapsed; [reflexivity|].
  unfold to_ulong. rewrite Zminus_mod_idemp_l.
  replace (move_timer_start (vars st) + elapsed - move_timer_start (vars st))
    with elapsed by lia.
  symmetry. apply Z.mod_small. exact Helapsed.
Qed.

Lemma timed_move_survives_clock_rollover_witness :
  exists st',
    updateTimedMove
      (mkState (set_timed_move_motor_id 1
                  (set_move_timer_start 4294967290
                     (set_move_duration 15 initial_globals)))
               (mkBoard erased_eeprom 14 "" idle_pins idle_pins []))
    = Some (tt, st') /\
    timed_move_motor_id (vars st') = -1 /\
    log (hw st')
    = [DigitalWrite IN3 LOW; DigitalWrite IN4 LOW; AnalogWrite ENB 0].
Proof.
  eexists. split.
  - apply (timed_move_survives_clock_rollover
             (mkState (set_timed_move_motor_id 1
                         (set_move_timer_start 4294967290
                            (set_move_duration 15 initial_globals)))
                      (mkBoard erased_eeprom 14 "" idle_pins idle_pins []))
             20);
      vm_compute; try reflexivity; split; (discriminate || reflexivity).
  - split; reflexivity.
Defined.

(** ** Sensor polling over time *)

Lemma updateSensorStates_result (st : state) :
  updateSensorStates st
  = Some (tt,
      if to_ulong (clock (hw st) - last_sensor_check (vars st)) >=? 250
      then mkState
             (set_sensor2_last_state (din (hw st) SENSOR_PIN_2)
                (set_sensor1_last_state (din (hw st) SENSOR_PIN_1)
                   (set_last_sensor_check (clock (hw st)) (vars st))))
             (set_log
                (log (hw st)
                 ++ sensor_line SENSOR_PIN_1 (din (hw st) SENSOR_PIN_1)
                                (sensor1_last_state (vars st))
                 ++ sensor_line SENSOR_PIN_2 (din (hw st) SENSOR_PIN_2)
                                (sensor2_last_state (vars st)))
                (hw st))
      else st).
Proof.
  destruct st as [g [e c r d a l]].
  unfold updateSensorStates. run_sketch.
  change (to_ulong SENSOR_CHECK_INTERVAL) with 250.
  destruct (to_ulong (c - last_sensor_check g) >=? 250); [|reflexivity].
  destruct g as [s1 s2 inp cpl spd mm deg flag start dur slot lastc].
  cbn [sensor1_last_state sensor2_last_state set_last_sensor_check
       set_sensor1_last_state set_sensor2_last_state].
  unfold sensor_line.
  destruct (Z.eqb_spec (d SENSOR_PIN_1) s1) as [E1|E1];
    cbn [negb]; run_sketch;
    cbn [sensor1_last_state sensor2_last_state set_last_sensor_check
         set_sensor1_last_state set_sensor2_last_state];
    destruct (Z.eqb_spec (d SENSOR_PIN_2) s2) as [E2|E2];
    cbn [negb]; run_sketch;
    cbn [sensor1_last_state sensor2_last_state set_last_sensor_check
         set_sensor1_last_state set_sensor2_last_state];
    rewrite ?E1, ?E2; flatten_log; reflexivity.
Qed.

Lemma sensor_line_same_level (pin level : Z) :
  sensor_line pin level level = [].
Proof. unfold sensor_line. now rewrite Z.eqb_refl. Qed.

(** A poll that finds both pins at their stored levels prints nothing. *)
Lemma quiet_poll (st : state) :
  sensor1_last_state (vars st) = din (hw st) SENSOR_PIN_1 ->
  sensor2_last_state (vars st) = din (hw st) SENSOR_PIN_2 ->
  exists st2,
    updateSensorStates st = Some (tt, st2) /\
    log (hw st2) = log (hw st).
Proof.
  intros H1 H2. rewrite updateSensorStates_result.
  destruct (to_ulong (clock (hw st) - last_sensor_check (vars st)) >=? 250).
  - eexists. split; [reflexivity|].
    rewrite H1, H2, !sensor_line_same_level.
    destruct st as [g [e c r d a l]]. cbn [hw log set_log app].
    apply app_nil_r.
  - exists st. split; reflexivity.
Qed.

(** X20.  A change is reported once.  After a poll that fired, the stored
    levels are the levels read and the poll time is the clock; from then
    on, at whatever later time it is called, [updateSensorStates] prints
    nothing as long as the two pins stay at those levels. *)
Theorem sensor_change_is_reported_once (st st1 : state) :
  updateSensorStates st = Some (tt, st1) ->
  (to_ulong (clock (hw st) - last_sensor_check (vars st)) >=? 250) = true ->
  sensor1_last_state (vars st1) = din (hw st) SENSOR_PIN_1 /\
  sensor2_last_state (vars st1) = din (hw st) SENSOR_PIN_2 /\
  last_sensor_check (vars st1) = clock (hw st) /\
  forall t,
  exists st2,
    updateSensorStates (at_time t st1) = Some (tt, st2) /\
    log (hw st2) = log (hw st1).
Proof.
  intros Hrun Hfired. rewrite updateSensorStates_result, Hfired in Hrun.
  inversion Hrun; subst st1. clear Hrun Hfired.
  destruct st as [g [e c r d a l]].
  destruct g as [s1 s2 inp cpl spd mm deg flag start dur slot lastc].
  repeat (split; [reflexivity|]).
  intros t.
  match goal with
  | |- exists st2, updateSensorStates ?s = _ /\ _ =>
      destruct (quiet_poll s) as (st2 & Hrun & Hlog);
      [reflexivity|reflexivity|];
      exists st2; split; [exact Hrun|exact Hlog]
  end.
Qed.

Lemma sensor_change_is_reported_once_witness :
  exists st1 st2,
    updateSensorStates
      (mkState initial_globals
         (mkBoard erased_eeprom 300 "" idle_pins idle_pins []))
    = Some (tt, st1) /\
    length (log (hw st1)) = 8%nat /\
    updateSensorStates (at_time 900 st1) = Some (tt, st2) /\
    log (hw st2) = log (hw st1).
Proof.
  eexists.
  assert (Hrun : updateSensorStates
            (mkState initial_globals
               (mkBoard erased_eeprom 300 "" idle_pins idle_pins []))
          = Some (tt, ?[s1])) by (vm_compute; reflexivity).
  destruct (sensor_change_is_reported_once _ _ Hrun eq_refl)
    as (_ & _ & _ & Hlater).
  destruct (Hlater 900) as (st2 & H2 & Hlog).
  exists st2. split; [exact Hrun|]. split; [reflexivity|].
  split; [exact H2|exact Hlog].
Defined.

(** X21.  The first poll after boot reports both sensors.  [setup] leaves
    the stored levels at -1, which [digitalRead] never returns; so the
    first time [updateSensorStates] runs with the clock at 250 ms or more
    it prints a SENSOR_STATE line for pin 2 and one for pin 3, whatever
    their levels. *)
Theorem first_poll_reports_both_sensors
        (e din0 ain0 : Z -> Z) (st0 : state) (t : Z) :
  setup (power_on e din0 ain0) = Some (tt, st0) ->
  din0 SENSOR_PIN_1 <> -1 -> din0 SENSOR_PIN_2 <> -1 ->
  250 <= t < 2 ^ LONG_BITS ->
  exists st1,
    updateSensorStates (at_time t st0) = Some (tt, st1) /\
    log (hw st1)
    = log (hw st0)
      ++ [Serial_print "SENSOR_STATE:"; Serial_print_int SENSOR_PIN_1;
          Serial_print ":"; Serial_println_int (din0 SENSOR_PIN_1);
          Serial_print "SENSOR_STATE:"; Serial_print_int SENSOR_PIN_2;
          Serial_print ":"; Serial_println_int (din0 SENSOR_PIN_2)].
Proof.
  intros Hsetup H1 H2 Ht.
  pose (poll := fun s : state =>
                  (sensor1_last_state (vars s), sensor2_last_state (vars s),
                   last_sensor_check (vars s), din (hw s))).
  assert (Hkeep : keeps (same poll) setup) by keeps_auto same_side.
  apply Hkeep in Hsetup. unfold same, poll in Hsetup. cbn in Hsetup.
  inversion Hsetup as [[Hs1 Hs2 Hlast Hdin]]. clear Hsetup Hkeep poll.
  rewrite updateSensorStates_result.
  destruct st0 as [g [e0 c r d a l]].
  cbn [at_time vars hw clock din log set_clock set_log] in *.
  subst d. rewrite Hs2, Hs1, Hlast, Z.sub_0_r.
  replace (to_ulong t >=? 250) with true.
  - eexists. split; [reflexivity|]. cbn [hw log].
    unfold sensor_line.
    replace (din0 SENSOR_PIN_1 =? -1) with false
      by (symmetry; now apply Z.eqb_neq).
    replace (din0 SENSOR_PIN_2 =? -1) with false
      by (symmetry; now apply Z.eqb_neq).
    reflexivity.
  - symmetry. unfold to_ulong. rewrite Z.mod_small by lia.
    apply Z.geb_le. lia.
Qed.

Lemma first_poll_reports_both_sensors_witness :
  exists st0 st1,
    setup (power_on erased_eeprom idle_pins idle_pins) = Some (tt, st0) /\
    updateSensorStates (at_time 250 st0) = Some (tt, st1) /\
    length (log (hw st1)) = (length (log (hw st0)) + 8)%nat.
Proof.
  eexists.
  assert (Hs : setup (power_on erased_eeprom idle_pins idle_pins)
               = Some (tt, ?[s0])) by (vm_compute; reflexivity).
  assert (H1 : idle_pins SENSOR_PIN_1 <> -1) by discriminate.
  assert (H2 : idle_pins SENSOR_PIN_2 <> -1) by discriminate.
  assert (Ht : 250 <= 250 < 2 ^ LONG_BITS) by (unfold LONG_BITS; lia).
  destruct (first_poll_reports_both_sensors _ _ _ _ 250 Hs H1 H2 Ht)
    as (st1 & Hrun & Hlog).
  exists st1. split; [exact Hs|]. split; [exact Hrun|].
  rewrite Hlog. reflexivity.
Defined.

(** ** The two motors *)

Lemma run_calls_outputs (id : Z) (forward : bool) (speeds : Z * Z)
      (l : list hw_call) :
  (id <> 0 ->
   (pin_drive (l ++ run_calls id forward speeds) IN1,
    pin_drive (l ++ run_calls id forward speeds) IN2,
    pin_drive (l ++ run_calls id forward speeds) ENA)
   = (pin_drive l IN1, pin_drive l IN2, pin_drive l ENA)) /\
  (id <> 1 ->
   (pin_drive (l ++ run_calls id forward speeds) IN3,
    pin_drive (l ++ run_calls id forward speeds) IN4,
    pin_drive (l ++ run_calls id forward speeds) ENB)
   = (pin_drive l IN3, pin_drive l IN4, pin_drive l ENB)).
Proof.
  rewrite !pin_drive_app. unfold run_calls.
  destruct (Z.eqb_spec id 0) as [H0|H0];
    [|destruct (Z.eqb_spec id 1) as [H1|H1]];
    split; intros H; try contradiction; reflexivity.
Qed.

Lemma stop_calls_outputs (id : Z) (l : list hw_call) :
  (id <> 0 ->
   (pin_drive (l ++ stop_calls id) IN1, pin_drive (l ++ stop_calls id) IN2,
    pin_drive (l ++ stop_calls id) ENA)
   = (pin_drive l IN1, pin_drive l IN2, pin_drive l ENA)) /\
  (id <> 1 ->
   (pin_drive (l ++ stop_calls id) IN3, pin_drive (l ++ stop_calls id) IN4,
    pin_drive (l ++ stop_calls id) ENB)
   = (pin_drive l IN3, pin_drive l IN4, pin_drive l ENB)).
Proof.
  rewrite !pin_drive_app. unfold stop_calls.
  destruct (Z.eqb_spec id 0) as [H0|H0];
    [|destruct (Z.eqb_spec id 1) as [H1|H1]];
    split; intros H; try contradiction; reflexivity.
Qed.

(** X22.  The motors are driven independently: running or stopping a
    motor other than 0 writes none of IN1, IN2, ENA, and running or
    stopping a motor other than 1 writes none of IN3, IN4, ENB.  So a
    MOVE_TIME for another motor, which takes over the single slot, leaves
    motor 0 carrying what it carried: a timed move of motor 0 that was
    under way is no longer scheduled to stop, and its motor keeps
    running. *)
Theorem motors_are_driven_independently (id : Z) (forward : bool) :
  (id <> 0 ->
   keeps (same motor0_outputs) (runMotor id forward) /\
   keeps (same motor0_outputs) (stopMotor id)) /\
  (id <> 1 ->
   keeps (same motor1_outputs) (runMotor id forward) /\
   keeps (same motor1_outputs) (stopMotor id)) /\
  (forall id_tok dir duration_tok st,
      is_token id_tok = true -> is_token dir = true ->
      is_token duration_tok = true ->
      atoi id_tok = id -> id <> 0 ->
      exists st',
        dispatch ("MOVE_TIME:" ++ id_tok ++ ":" ++ dir ++ ":" ++ duration_tok)
                 st = Some (tt, st') /\
        motor0_outputs st' = motor0_outputs st /\
        timed_move_motor_id (vars st') = id).
Proof.
  split; [|split].
  - intros H0. split; intros st a st' H.
    + rewrite runMotor_calls in H. inversion H; subst st'.
      destruct st as [g [e c r d a' l]].
      exact (proj1 (run_calls_outputs id forward (motor_speeds g) l) H0).
    + rewrite stopMotor_calls in H. inversion H; subst st'.
      destruct st as [g [e c r d a' l]].
      exact (proj1 (stop_calls_outputs id l) H0).
  - intros H1. split; intros st a st' H.
    + rewrite runMotor_calls in H. inversion H; subst st'.
      destruct st as [g [e c r d a' l]].
      exact (proj2 (run_calls_outputs id forward (motor_speeds g) l) H1).
    + rewrite stopMotor_calls in H. inversion H; subst st'.
      destruct st as [g [e c r d a' l]].
      exact (proj2 (stop_calls_outputs id l) H1).
  - intros id_tok dir duration_tok st Hid Hdir Hdur Hat H0.
    rewrite (dispatch_MOVE_TIME id_tok dir duration_tok st Hid Hdir Hdur).
    rewrite startTimedMove_result, Hat.
    eexists. split; [reflexivity|].
    destruct st as [g [e c r d a' l]]. split; [|reflexivity].
    exact (proj1 (run_calls_outputs id _ (motor_speeds g) l) H0).
Qed.

Lemma motors_are_driven_independently_witness :
  exists st1 st2,
    dispatch "MOVE_TIME:0:FWD:1000"
             (power_on erased_eeprom idle_pins idle_pins) = Some (tt, st1) /\
    dispatch "MOVE_TIME:1:FWD:100" st1 = Some (tt, st2) /\
    motor0_outputs st2
    = (Some (Digital HIGH), Some (Digital LOW), Some (Pwm 255)) /\
    timed_move_motor_id (vars st2) = 1.
Proof.
  eexists.
  assert (H1 : dispatch "MOVE_TIME:0:FWD:1000"
                 (power_on erased_eeprom idle_pins idle_pins)
               = Some (tt, ?[s1])) by (vm_compute; reflexivity).
  assert (Hneq : 1 <> 0) by discriminate.
  match type of H1 with
  | _ = Some (tt, ?s1) =>
      destruct (proj2 (proj2 (motors_are_driven_independently 1 true))
                  "1" "FWD" "100" s1 eq_refl eq_refl eq_refl eq_refl Hneq)
        as (st2 & H2 & Hout & Hslot)
  end.
  exists st2. split; [exact H1|]. split; [exact H2|].
  split; [rewrite Hout; reflexivity|exact Hslot].
Defined.

(** ** Boot *)

(** X23.  Whatever the EEPROM holds and whatever state the variables are
    in, [setup] completes and leaves both calibration values positive
    (and within [int]), both motors stopped (direction pins low, enable at
    PWM 0) and every other global as it was; the last line it prints is
    the banner with the two calibration values now in force. *)
Theorem setup_leaves_a_safe_state (st : state) :
  exists st' earlier,
    setup st = Some (tt, st') /\
    0 < ms_per_mm (vars st') < 32768 /\
    0 < ms_per_deg (vars st') < 32768 /\
    motor0_outputs st' = motor_stopped /\
    motor1_outputs st' = motor_stopped /\
    set_ms_per_mm 0 (set_ms_per_deg 0 (vars st'))
    = set_ms_per_mm 0 (set_ms_per_deg 0 (vars st)) /\
    log (hw st')
    = earlier
      ++ [Serial_print "STATUS:Arduino Ready. CAL:MS_PER_MM:";
          Serial_print_int (ms_per_mm (vars st'));
          Serial_print ":MS_PER_DEG:";
          Serial_println_int (ms_per_deg (vars st'))].
Proof.
  destruct st as [g [e c r d a l]].
  assert (Rmm : -32768 <= eeprom_read_int e EEPROM_ADDR_MS_PER_MM < 32768)
    by apply to_int_range.
  assert (Rdeg : -32768 <= eeprom_read_int e EEPROM_ADDR_MS_PER_DEG < 32768)
    by apply to_int_range.
  unfold setup, stopMotor, motor0_outputs, motor1_outputs, motor_stopped.
  change (0 =? 0) with true. change (1 =? 0) with false.
  change (1 =? 1) with true.
  destruct g as [s1 s2 inp cpl spd mm deg flag start dur slot lastc].
  run_sketch.
  cbn [ms_per_mm ms_per_deg set_ms_per_mm set_ms_per_deg].
  destruct (Z.leb_spec (eeprom_read_int e EEPROM_ADDR_MS_PER_MM) 0);
    run_sketch; cbn [ms_per_mm ms_per_deg set_ms_per_mm set_ms_per_deg];
    destruct (Z.leb_spec (eeprom_read_int e EEPROM_ADDR_MS_PER_DEG) 0);
    run_sketch; cbn [ms_per_mm ms_per_deg set_ms_per_mm set_ms_per_deg];
    flatten_log;
    eexists; eexists; (split; [reflexivity|]);
    cbn [vars hw log ms_per_mm ms_per_deg set_ms_per_mm set_ms_per_deg];
    (split; [lia|]); (split; [lia|]);
    rewrite !pin_drive_app;
    (split; [reflexivity|]); (split; [reflexivity|]);
    (split; [reflexivity|]);
    match goal with
    | |- ?l0 ++ ?calls = _ =>
        change (l0 ++ calls)
          with (l0 ++ (firstn 17 calls ++ skipn 17 calls));
        rewrite app_assoc; reflexivity
    end.
Qed.

(** ** Missing arguments *)

Lemma defined_ret {A : Type} (a : A) : defined (ret a).
Proof. intros st. exists a, st. reflexivity. Qed.

Lemma defined_bind {A B : Type} (m : M A) (k : A -> M B) :
  defined m -> (forall a, defined (k a)) -> defined (bind m k).
Proof.
  intros Hm Hk st. destruct (Hm st) as (a & s1 & E).
  destruct (Hk a s1) as (b & s2 & E2).
  exists b, s2. unfold bind. rewrite E. exact E2.
Qed.

Ltac defined_step :=
  match goal with
  | |- defined (if true then _ else _) => cbv iota
  | |- defined (if false then _ else _) => cbv iota
  | |- defined (bind _ _) => apply defined_bind; [ | intros ?]
  | |- defined (ret _) => apply defined_ret
  | |- defined (let _ := _ in _) => cbv zeta
  | |- defined (if ?b then _ else _) => destruct b
  | |- defined (match ?x with (_, _) => _ end) => destruct x
  | |- defined (match strtok ?s with _ => _ end) =>
      destruct (strtok s) as [[? ?]|]
  | |- defined _ => intros ?; eexists; eexists; reflexivity
  end.

(** X24.  Which lines can go wrong.  A line whose command is not one of
    the eight that use an argument unchecked (so: GET_CAL, SET_CAL,
    PIN_TEST, TRACK_SUN, SENSOR_REPORT, any unknown name, or no name at
    all) is handled without undefined behaviour whatever follows the
    name.  Each of the eight, sent without any argument, passes a null
    pointer to a C string function. *)
Theorem only_unchecked_commands_can_fail :
  (forall cmd_buffer,
      (forall c, command_of cmd_buffer = Some c ->
                 existsb (String.eqb c) unchecked_argument_commands = false) ->
      defined (dispatch cmd_buffer)) /\
  (forall name st,
      In name unchecked_argument_commands -> dispatch name st = None).
Proof.
  split.
  - intros cmd_buffer H. unfold dispatch, command_of in *.
    destruct (strtok cmd_buffer) as [[command0 saved]|];
      [|apply defined_ret].
    specialize (H _ eq_refl).
    unfold unchecked_argument_commands in H. cbn [existsb] in H.
    repeat match goal with
           | H : _ || _ = false |- _ =>
               apply orb_false_elim in H; destruct H
           end.
    cbv zeta.
    repeat match goal with
           | H : (_ =? _)%string = false |- _ => rewrite H; clear H
           end.
    cbv beta zeta delta [trackSun runMotor stopMotor pinMode digitalWrite
                         analogWrite].
    repeat defined_step.
  - intros name st Hin. unfold unchecked_argument_commands in Hin.
    cbn [In] in Hin.
    repeat (destruct Hin as [Hin|Hin];
            [subst name; unfold dispatch; eval_tokens;
             unfold bind, next_token; eval_tokens; reflexivity|]).
    contradiction.
Qed.

Lemma only_unchecked_commands_can_fail_witness :
  (exists a st',
      dispatch "SET_CAL:::"
               (power_on erased_eeprom idle_pins idle_pins) = Some (a, st')) /\
  dispatch "MOVE_TIME" (power_on erased_eeprom idle_pins idle_pins) = None.
Proof.
  split.
  - apply (proj1 only_unchecked_commands_can_fail "SET_CAL:::").
    intros c Hc. vm_compute in Hc. inversion Hc; subst c. reflexivity.
  - apply (proj2 only_unchecked_commands_can_fail).
    vm_compute. tauto.
Defined.

(** ** Commands that leave the pins alone *)

Ltac pin_side :=
  unfold same; intros;
  cbn [hw log set_log set_clock set_eeprom set_rx];
  rewrite ?pin_drive_app; (reflexivity || congruence).

(** X25.  Only the eight motor and pin commands write an output pin.
    SET_SPEED, GET_CAL, SET_CAL, CALIBRATE, SENSOR_REPORT and unknown
    commands leave every pin carrying what it carried, and so does a
    sensor poll. *)
Theorem other_commands_write_no_pin (pin : Z) :
  (forall cmd_buffer,
      (forall c, command_of cmd_buffer = Some c ->
                 existsb (String.eqb c) pin_writing_commands = false) ->
      keeps (same (fun st => pin_drive (log (hw st)) pin))
            (dispatch cmd_buffer)) /\
  keeps (same (fun st => pin_drive (log (hw st)) pin)) updateSensorStates.
Proof.
  split.
  - intros cmd_buffer H. unfold dispatch, command_of in *.
    destruct (strtok cmd_buffer) as [[command0 saved]|];
      [|keeps_auto pin_side].
    specialize (H _ eq_refl).
    unfold pin_writing_commands in H. cbn [existsb] in H.
    repeat match goal with
           | H : _ || _ = false |- _ =>
               apply orb_false_elim in H; destruct H
           end.
    cbv zeta.
    repeat match goal with
           | H : (_ =? _)%string = false |- _ => rewrite H; clear H
           end.
    keeps_auto pin_side.
  - keeps_auto pin_side.
Qed.

Lemma other_commands_write_no_pin_witness :
  exists st',
    dispatch "CALIBRATE:SENSORS" (power_on erased_eeprom idle_pins idle_pins)
    = Some (tt, st') /\
    pin_drive (log (hw st')) ENA = None.
Proof.
  destruct (dispatch "CALIBRATE:SENSORS"
              (power_on erased_eeprom idle_pins idle_pins))
    as [[[] st']|] eqn:E; [|vm_compute in E; discriminate E].
  exists st'. split; [reflexivity|].
  refine (proj1 (other_commands_write_no_pin ENA) "CALIBRATE:SENSORS" _
                _ _ _ E).
  intros c Hc. vm_compute in Hc. inversion Hc; subst c. reflexivity.
Defined.

(** ** A timed move and the tick of the same pass *)

(** X26.  [loop] ticks the scheduler right after handling a line.  With
    no time passing in between, a timed move just started with a duration
    of 0 is completed by that tick (the motor is run and at once stopped),
    while one with a positive duration stays active.  Here the id is any
    id but the sentinel -1 and the duration any [unsigned long]. *)
Theorem zero_duration_move_ends_in_the_same_pass
        (id : Z) (forward : bool) (duration : Z) (st : state) :
  id <> -1 -> 0 <= duration < 2 ^ LONG_BITS ->
  (startTimedMove id forward duration ;; updateTimedMove) st
  = Some (tt,
          if duration =? 0
          then mkState
                 (set_timed_move_motor_id (-1)
                    (set_move_timer_start (clock (hw st))
                       (set_move_duration 0
                          (set_timed_move_motor_id id (vars st)))))
                 (set_log (log (hw st)
                           ++ run_calls id forward (motor_speeds (vars st))
                           ++ stop_calls id)
                          (hw st))
          else mkState
                 (set_move_timer_start (clock (hw st))
                    (set_move_duration duration
                       (set_timed_move_motor_id id (vars st))))
                 (set_log (log (hw st)
                           ++ run_calls id forward (motor_speeds (vars st)))
                          (hw st))).
Proof.
  intros Hid Hd. unfold bind at 1.
  rewrite startTimedMove_result, updateTimedMove_result.
  destruct st as [g [e c r d a l]].
  destruct g as [s1 s2 inp cpl spd mm deg flag start dur slot lastc].
  cbv beta iota delta
    [vars hw clock log set_log timed_move_active timed_move_motor_id
     move_timer_start move_duration motor_speeds set_move_timer_start
     set_move_duration set_timed_move_motor_id].
  replace (id =? -1) with false by (symmetry; now apply Z.eqb_neq).
  cbn [negb andb]. rewrite Z.sub_diag.
  change (to_ulong 0) with 0.
  destruct (Z.eqb_spec duration 0) as [E|E].
  - subst duration. change (0 >=? 0) with true. cbv iota.
    rewrite <- app_assoc. reflexivity.
  - replace (0 >=? duration) with false; [reflexivity|].
    symmetry. rewrite Z.geb_leb. apply Z.leb_gt. lia.
Qed.

Lemma zero_duration_move_ends_in_the_same_pass_witness :
  exists st',
    (startTimedMove 0 true 0 ;; updateTimedMove)
      (power_on erased_eeprom idle_pins idle_pins) = Some (tt, st') /\
    timed_move_motor_id (vars st') = -1 /\
    log (hw st')
    = [DigitalWrite IN1 HIGH; DigitalWrite IN2 LOW; AnalogWrite ENA 255;
       DigitalWrite IN1 LOW; DigitalWrite IN2 LOW; AnalogWrite ENA 0].
Proof.
  assert (Hid : 0 <> -1) by discriminate.
  assert (Hd : 0 <= 0 < 2 ^ LONG_BITS) by (unfold LONG_BITS; lia).
  eexists. split.
  - exact (zero_duration_move_ends_in_the_same_pass 0 true 0
             (power_on erased_eeprom idle_pins idle_pins) Hid Hd).
  - split; reflexivity.
Defined.

(** ** Stripping trailing white space *)

Lemma drop_suffix_split (p : ascii -> bool) (s : string) :
  exists tail,
    s = (drop_suffix p s ++ tail)%string /\ all_chars p tail = true.
Proof.
  induction s as [|c r (tail & Hr & Htail)]; cbn [drop_suffix].
  - exists EmptyString. split; reflexivity.
  - destruct (drop_suffix p r) as [|a d'] eqn:E.
    + cbn [String.append] in Hr. subst tail.
      destruct (p c) eqn:Hc.
      * exists (String c r). split; [reflexivity|].
        cbn [all_chars]. now rewrite Hc, Htail.
      * exists r. split; [reflexivity|exact Htail].
    + exists tail. split; [|exact Htail].
      cbn [String.append] in *. now rewrite <- Hr.
Qed.

Lemma drop_suffix_last (p : ascii -> bool) (s pre : string) (c : ascii) :
  drop_suffix p s = (pre ++ String c "")%string -> p c = false.
Proof.
  revert pre. induction s as [|c0 r IH]; intros pre H; cbn [drop_suffix] in H.
  - destruct pre; discriminate H.
  - destruct (drop_suffix p r) as [|a d'] eqn:E.
    + destruct (p c0) eqn:Hc0.
      * destruct pre; discriminate H.
      * destruct pre as [|b pre']; cbn [String.append] in H.
        -- inversion H; subst; exact Hc0.
        -- inversion H as [[Hb Hrest]]. destruct pre'; discriminate Hrest.
    + destruct pre as [|b pre']; cbn [String.append] in H.
      * discriminate H.
      * inversion H as [[Hb Hrest]]. exact (IH pre' Hrest).
Qed.

Lemma drop_suffix_idempotent (p : ascii -> bool) (s : string) :
  drop_suffix p (drop_suffix p s) = drop_suffix p s.
Proof.
  induction s as [|c r IH]; cbn [drop_suffix]; [reflexivity|].
  destruct (drop_suffix p r) as [|a d'] eqn:E.
  - destruct (p c) eqn:Hc; cbn [drop_suffix]; [reflexivity|].
    now rewrite Hc.
  - change (drop_suffix p (String c (String a d')))
      with (match drop_suffix p (String a d') with
            | EmptyString =>
                if p c then EmptyString else String c EmptyString
            | r' => String c r'
            end).
    now rewrite IH.
Qed.

(** X2.  The helper [stripTrailing] removes exactly the trailing run of
    CR, LF, space and tab: what it returns is a prefix of the token, the
    part cut off consists of those four characters only, the result does
    not end in one of them (white space inside a token stays), and
    stripping twice changes nothing more. *)
Theorem stripTrailing_cuts_exactly_the_tail (s : string) :
  (exists tail,
      s = (stripTrailing s ++ tail)%string /\
      all_chars is_trailing tail = true) /\
  (forall pre c,
      stripTrailing s = (pre ++ String c "")%string ->
      is_trailing c = false) /\
  stripTrailing (stripTrailing s) = stripTrailing s.
Proof.
  unfold stripTrailing. split; [|split].
  - apply drop_suffix_split.
  - intros pre c. apply drop_suffix_last.
  - apply drop_suffix_idempotent.
Qed.

Example stripTrailing_sample :
  stripTrailing ("ON " ++ String (ascii_of_nat 13) "") = "ON"%string /\
  stripTrailing "A B " = "A B"%string.
Proof. split; reflexivity. Qed.

(** ** Percentages out of range *)

Lemma quot_percent_bounds (p : Z) :
  -12849 <= p <= 12849 ->
  -32768 <= Z.quot (p * 255) 100 < 32768 /\
  (100 < p -> 255 < Z.quot (p * 255) 100) /\
  (p < 0 -> Z.quot (p * 255) 100 < 0).
Proof.
  intros Hp. destruct (Z_lt_le_dec p 0) as [Hneg|Hpos].
  - replace (p * 255) with (- ((- p) * 255)) by lia.
    rewrite Z.quot_opp_l by lia.
    rewrite Z.quot_div_nonneg by lia.
    assert (H1 : 2 <= - p * 255 / 100)
      by (apply Z.div_le_lower_bound; lia).
    assert (H2 : - p * 255 / 100 < 32765)
      by (apply Z.div_lt_upper_bound; lia).
    lia.
  - rewrite Z.quot_div_nonneg by lia.
    assert (H1 : 0 <= p * 255 / 100) by (apply Z.div_pos; lia).
    assert (H2 : p * 255 / 100 < 32765)
      by (apply Z.div_lt_upper_bound; lia).
    split; [lia|]. split; [|lia].
    intros H100.
    assert (257 <= p * 255 / 100) by (apply Z.div_le_lower_bound; lia).
    lia.
Qed.

(** X27.  SET_SPEED does not clamp the percentage.  For a percent token
    reading as p, with |p| at most 12849 so that nothing overflows, the
    stored setting is p * 255 / 100 truncated toward zero; it exceeds 255
    as soon as p exceeds 100 and is negative as soon as p is. *)
Theorem set_speed_does_not_clamp (percent_tok : string) (st : state) :
  is_token percent_tok = true ->
  -12849 <= atoi percent_tok <= 12849 ->
  let q := Z.quot (atoi percent_tok * 255) 100 in
  dispatch ("SET_SPEED:*:" ++ percent_tok) st
  = Some (tt, mkState (set_motor_speeds (q, q) (vars st)) (hw st)) /\
  (100 < atoi percent_tok -> 255 < q) /\
  (atoi percent_tok < 0 -> q < 0).
Proof.
  intros Htok Hp q.
  destruct (quot_percent_bounds (atoi percent_tok) Hp) as (Hq & Hhi & Hlo).
  fold q in Hq, Hhi, Hlo.
  split; [|split; assumption].
  pose proof (dispatch_SET_SPEED "*" percent_tok st eq_refl Htok) as H.
  cbv zeta in H. change ("*" =? "*")%string with true in H. cbv iota in H.
  change ("SET_SPEED:" ++ "*" ++ ":" ++ percent_tok)%string
    with ("SET_SPEED:*:" ++ percent_tok)%string in H.
  rewrite H. clear H.
  assert (Hmap : to_int (map (atoi percent_tok) 0 100 0 255) = q).
  { unfold map. change (100 =? 0) with false. cbv iota.
    rewrite !Z.sub_0_r, Z.add_0_r.
    rewrite (to_long_small (atoi percent_tok)) by lia.
    rewrite (to_long_small 255) by lia.
    rewrite (to_long_small 100) by lia.
    rewrite (to_long_small (atoi percent_tok * 255)) by lia.
    unfold cdiv. fold q.
    rewrite (to_long_small q) by lia.
    rewrite (to_long_small q) by lia.
    apply to_int_small. lia. }
  rewrite Hmap. reflexivity.
Qed.

Lemma set_speed_does_not_clamp_witness :
  dispatch "SET_SPEED:*:200" (power_on erased_eeprom idle_pins idle_pins)
  = Some (tt,
          mkState (set_motor_speeds (510, 510) initial_globals)
                  (mkBoard erased_eeprom 0 "" idle_pins idle_pins [])).
Proof.
  assert (Hp : -12849 <= atoi "200" <= 12849)
    by (vm_compute; split; discriminate).
  exact (proj1 (set_speed_does_not_clamp "200"
                  (power_on erased_eeprom idle_pins idle_pins) eq_refl Hp)).
Defined.

(** ** A line is read as its sequence of fields *)

Lemma tokens_fuel_enough (fuel1 fuel2 : nat) (s : string) :
  (String.length s < fuel1)%nat -> (String.length s < fuel2)%nat ->
  tokens_fuel fuel1 s = tokens_fuel fuel2 s.
Proof.
  revert fuel2 s.
  induction fuel1 as [|fuel1 IH]; intros fuel2 s H1 H2; [lia|].
  destruct fuel2 as [|fuel2]; [lia|].
  cbn [tokens_fuel].
  destruct (strtok s) as [[t rest]|] eqn:E; [|reflexivity].
  destruct (strtok_yields_a_token s t rest E) as (_ & _ & Hshort).
  f_equal. apply IH; lia.
Qed.

(** [tokens] follows [strtok]. *)
Lemma tokens_unfold (s : string) :
  tokens s
  = match strtok s with
    | Some (t, rest) => t :: tokens rest
    | None => []
    end.
Proof.
  unfold tokens.
  change (tokens_fuel (S (String.length s)) s)
    with (match strtok s with
          | Some (t, rest) => t :: tokens_fuel (String.length s) rest
          | None => []
          end).
  destruct (strtok s) as [[t rest]|] eqn:E; [|reflexivity].
  destruct (strtok_yields_a_token s t rest E) as (_ & _ & Hshort).
  f_equal. apply tokens_fuel_enough; lia.
Qed.

(** On texts with the same fields [strtok] returns the same token and
    leaves texts with the same fields. *)
Lemma strtok_same_fields (s s' : string) :
  tokens s = tokens s' ->
  match strtok s, strtok s' with
  | Some (t, rest), Some (t', rest') => t = t' /\ tokens rest = tokens rest'
  | None, None => True
  | _, _ => False
  end.
Proof.
  intros H. rewrite (tokens_unfold s), (tokens_unfold s') in H.
  destruct (strtok s) as [[t rest]|], (strtok s') as [[t' rest']|];
    try discriminate H; [|exact I].
  injection H as Ht Hr. split; assumption.
Qed.

Ltac same_fields_step :=
  match goal with
  | |- ?x = ?x => reflexivity
  | H : tokens ?q = tokens ?q' |- context [strtok ?q] =>
      let E := fresh "E" in
      pose proof (strtok_same_fields q q' H) as E; clear H;
      destruct (strtok q) as [[? ?]|], (strtok q') as [[? ?]|];
      try contradiction; [destruct E as [<- ?]|]
  | |- context [if ?b then _ else _] => destruct b
  end.

(** X1.  [dispatch] reads a line as its sequence of non-empty fields and
    nothing else: two buffers that yield the same tokens are handled the
    same way, undefined behaviour included.  So leading colons, doubled
    colons and trailing colons make no difference, and an empty field
    cannot be passed as an argument. *)
Theorem dispatch_depends_on_fields_only (s s' : string) (st : state) :
  tokens s = tokens s' -> dispatch s st = dispatch s' st.
Proof.
  intros H. unfold dispatch.
  cbv beta iota zeta delta [bind next_token ret undefined].
  repeat same_fields_step.
Qed.

Lemma dispatch_depends_on_fields_only_witness :
  dispatch "::MOTOR_CMD::0:::STOP:"
           (power_on erased_eeprom idle_pins idle_pins)
  = dispatch "MOTOR_CMD:0:STOP" (power_on erased_eeprom idle_pins idle_pins)
  /\
  dispatch "SET_CAL:MS_PER_MM::" (power_on erased_eeprom idle_pins idle_pins)
  = dispatch "SET_CAL:MS_PER_MM" (power_on erased_eeprom idle_pins idle_pins).
Proof.
  split; apply dispatch_depends_on_fields_only; reflexivity.
Defined.
